(** * Dual-view JIT memory for Android: a model of [android_jit.cpp]

    The allocator hands a code generator two views of one anonymous memory
    file: a read/write view and a read/execute view.  A registry (two
    [std::map]s) records the pairs and translates addresses between the
    views.

    The development has four layers:
    - [Word64]: 64-bit unsigned arithmetic ([size_t] and [uintptr_t] on
      arm64-v8a, the only ABI the build accepts);
    - [StdMap]: [std::map] keyed by addresses, as a list kept in key order
      (the interior scans iterate in that order);
    - [OS]: the system calls the allocator issues, over a table of live
      mappings, a set of open descriptors, [errno] and a trace of calls;
    - [Jit]: the functions of [android_jit.cpp] over these.

    Calls are taken one at a time: every function that touches the
    registry holds [g_jit_mutex] while it does, so the lock is not
    modelled.  Log output is not modelled either. *)

From Stdlib Require Import ZArith Lia List Bool.
From stdpp Require Import base gmap list.

Open Scope Z_scope.

(** ** 64-bit unsigned words *)
Module Word64.

Definition SIZE_MOD : Z := 2 ^ 64.

(** Conversion to [size_t] / [uintptr_t]: arithmetic wraps modulo 2^64. *)
Definition to_size_t (z : Z) : Z := z mod SIZE_MOD.

(** [~x] on a [size_t]. *)
Definition size_not (x : Z) : Z := to_size_t (Z.lnot x).

Definition nullptr : Z := 0.

(** [MAP_FAILED] is [(void * ) -1]. *)
Definition MAP_FAILED : Z := SIZE_MOD - 1.

Definition EINVAL : Z := 22.
Definition ENOMEM : Z := 12.
Definition EMFILE : Z := 24.

End Word64.
Export Word64.

(** ** [std::map<void*, V>] *)
Module StdMap.
Section Ops.
Context {V : Type}.

(** [m.find(k)]: [None] stands for [m.end()]. *)
Fixpoint smap_find (k : Z) (m : list (Z * V)) : option V :=
  match m with
  | [] => None
  | (k', v) :: m' => if k' =? k then Some v else smap_find k m'
  end.

(** [m[k] = v]: the node for [k] is created at its place in key order,
    or overwritten when it exists. *)
Fixpoint smap_assign (k : Z) (v : V) (m : list (Z * V)) : list (Z * V) :=
  match m with
  | [] => [(k, v)]
  | (k', v') :: m' =>
      if k <? k' then (k, v) :: m
      else if k =? k' then (k, v) :: m'
      else (k', v') :: smap_assign k v m'
  end.

(** [m.erase(k)]. *)
Fixpoint smap_erase (k : Z) (m : list (Z * V)) : list (Z * V) :=
  match m with
  | [] => []
  | (k', v) :: m' =>
      if k' =? k then smap_erase k m' else (k', v) :: smap_erase k m'
  end.

(** Keys strictly ascending: the iteration order of [std::map]. *)
Fixpoint smap_sorted (m : list (Z * V)) : Prop :=
  match m with
  | [] => True
  | (k, _) :: m' => (forall k' v', In (k', v') m' -> k < k') /\ smap_sorted m'
  end.
End Ops.
End StdMap.
Export StdMap.

(** ** The operating system, as far as the allocator talks to it *)
Module OS.

Inductive protection := PROT_READ_WRITE | PROT_READ_EXEC.

(** One entry per system call issued, with its result. *)
Inductive syscall :=
| Sys_memfd_create (ret : Z)
| Sys_ftruncate (fd len ret : Z)
| Sys_mmap (len : Z) (prot : protection) (fd ret : Z)
| Sys_munmap (addr len : Z)
| Sys_close (fd : Z).

Record os := {
  os_pagesize : Z;          (* what sysconf(_SC_PAGESIZE) reports *)
  os_maps : gmap Z Z;       (* live mappings: base address -> length *)
  os_fds : gset Z;          (* open file descriptors *)
  os_errno : Z;
  os_trace : list syscall   (* oldest call first *)
}.

Definition set_maps (f : gmap Z Z -> gmap Z Z) (k : os) : os :=
  {| os_pagesize := os_pagesize k; os_maps := f (os_maps k);
     os_fds := os_fds k; os_errno := os_errno k; os_trace := os_trace k |}.

Definition set_fds (f : gset Z -> gset Z) (k : os) : os :=
  {| os_pagesize := os_pagesize k; os_maps := os_maps k;
     os_fds := f (os_fds k); os_errno := os_errno k; os_trace := os_trace k |}.

Definition set_errno (e : Z) (k : os) : os :=
  {| os_pagesize := os_pagesize k; os_maps := os_maps k;
     os_fds := os_fds k; os_errno := e; os_trace := os_trace k |}.

Definition log (c : syscall) (k : os) : os :=
  {| os_pagesize := os_pagesize k; os_maps := os_maps k;
     os_fds := os_fds k; os_errno := os_errno k;
     os_trace := os_trace k ++ [c] |}.

(** What the kernel answers is its own choice (which address, which
    descriptor, or a refusal).  A call takes that choice as a [reply]; a
    grant the kernel could not give (a range that overlaps a live mapping,
    a descriptor that is already open) is turned into a refusal. *)
Inductive reply := Grant (v : Z) | Refuse (e : Z).

(** A range the kernel may hand out: non-empty, page aligned, not at
    address zero, below [MAP_FAILED], and disjoint from every live
    mapping. *)
Definition mmap_fits (k : os) (a len : Z) : Prop :=
  0 < len /\ 0 < a /\ a mod os_pagesize k = 0 /\ a + len < SIZE_MOD /\
  map_Forall (fun b l => a + len <= b \/ b + l <= a) (os_maps k).

#[global] Instance mmap_fits_dec k a len : Decision (mmap_fits k a len).
Proof. unfold mmap_fits. apply _. Defined.

Definition fd_fresh (k : os) (fd : Z) : Prop :=
  0 <= fd < 2 ^ 31 /\ fd ∉ os_fds k.

#[global] Instance fd_fresh_dec k fd : Decision (fd_fresh k fd).
Proof. unfold fd_fresh. apply _. Defined.

Definition sys_memfd_create (r : reply) (k : os) : Z * os :=
  match r with
  | Grant fd =>
      if decide (fd_fresh k fd)
      then (fd, log (Sys_memfd_create fd) (set_fds (fun s => {[fd]} ∪ s) k))
      else (-1, log (Sys_memfd_create (-1)) (set_errno EMFILE k))
  | Refuse e => (-1, log (Sys_memfd_create (-1)) (set_errno e k))
  end.

Definition sys_ftruncate (r : reply) (fd len : Z) (k : os) : Z * os :=
  match r with
  | Grant _ => (0, log (Sys_ftruncate fd len 0) k)
  | Refuse e => (-1, log (Sys_ftruncate fd len (-1)) (set_errno e k))
  end.

(** [mmap(nullptr, len, prot, MAP_SHARED, fd, 0)]; a zero length is
    rejected with [EINVAL]. *)
Definition sys_mmap (r : reply) (len : Z) (p : protection) (fd : Z) (k : os)
  : Z * os :=
  if len =? 0
  then (MAP_FAILED, log (Sys_mmap len p fd MAP_FAILED) (set_errno EINVAL k))
  else
    match r with
    | Grant a =>
        if decide (mmap_fits k a len)
        then (a, log (Sys_mmap len p fd a) (set_maps (insert a len) k))
        else (MAP_FAILED,
              log (Sys_mmap len p fd MAP_FAILED) (set_errno ENOMEM k))
    | Refuse e =>
        (MAP_FAILED, log (Sys_mmap len p fd MAP_FAILED) (set_errno e k))
    end.

(** [munmap(addr, len)] of a whole mapping, the only use the allocator
    makes of it; any other range leaves the table as it is. *)
Definition sys_munmap (addr len : Z) (k : os) : os :=
  log (Sys_munmap addr len)
    (if decide (os_maps k !! addr = Some len)
     then set_maps (delete addr) k else k).

Definition sys_close (fd : Z) (k : os) : os :=
  log (Sys_close fd) (set_fds (fun s => s ∖ {[fd]}) k).

Definition sys_sysconf_pagesize (k : os) : Z := os_pagesize k.

(** Live mappings are non-empty, away from address zero, below
    [MAP_FAILED] and pairwise disjoint; the page size is a power of two. *)
Definition os_ok (k : os) : Prop :=
  (exists n, 0 <= n < 63 /\ os_pagesize k = 2 ^ n) /\
  map_Forall (fun b l => 0 < b /\ 0 < l /\ b + l < SIZE_MOD) (os_maps k) /\
  (forall b1 l1 b2 l2,
      os_maps k !! b1 = Some l1 -> os_maps k !! b2 = Some l2 ->
      b1 <> b2 -> b1 + l1 <= b2 \/ b2 + l2 <= b1).

End OS.
Export OS.

(** ** The allocator *)
Module Jit.

Record JitAllocation := {
  rw_ptr : Z;
  rx_ptr : Z;
  size : Z;
  fd : Z
}.

(** The global state.  [g_jit_allocations_by_rx] maps to
    [JitAllocation*], a pointer to the record stored in a node of
    [g_jit_allocations_by_rw]; the node is named by its key. *)
Record jit_state := {
  g_jit_allocations_by_rw : list (Z * JitAllocation);
  g_jit_allocations_by_rx : list (Z * Z);
  g_page_size : Z;
  g_initialized : bool;
  os_state : os
}.

Definition with_os (k : os) (st : jit_state) : jit_state :=
  {| g_jit_allocations_by_rw := g_jit_allocations_by_rw st;
     g_jit_allocations_by_rx := g_jit_allocations_by_rx st;
     g_page_size := g_page_size st;
     g_initialized := g_initialized st;
     os_state := k |}.

(** Dereference of a [JitAllocation*] held by the second index; [None]
    is a dangling pointer. *)
Definition deref (st : jit_state) (node : Z) : option JitAllocation :=
  smap_find node (g_jit_allocations_by_rw st).

Definition round_up_to_page (page sz : Z) : Z :=
  Z.land (to_size_t (sz + page - 1)) (size_not (to_size_t (page - 1))).

Definition android_jit_init (st : jit_state) : Z * jit_state :=
  if g_initialized st then (0, st)
  else
    let probed := to_size_t (sys_sysconf_pagesize (os_state st)) in
    let page := if probed =? 0 then 4096 else probed in
    (0, {| g_jit_allocations_by_rw := g_jit_allocations_by_rw st;
           g_jit_allocations_by_rx := g_jit_allocations_by_rx st;
           g_page_size := page;
           g_initialized := true;
           os_state := os_state st |}).

(** The release sequence that [android_jit_shutdown] and
    [android_jit_free] both spell out: unmap the two views with the
    recorded size, close the descriptor. *)
Definition release (a : JitAllocation) (k : os) : os :=
  let k1 := if rw_ptr a =? nullptr then k
            else sys_munmap (rw_ptr a) (size a) k in
  let k2 := if rx_ptr a =? nullptr then k1
            else sys_munmap (rx_ptr a) (size a) k1 in
  if 0 <=? fd a then sys_close (fd a) k2 else k2.

Definition android_jit_shutdown (st : jit_state) : jit_state :=
  {| g_jit_allocations_by_rw := [];
     g_jit_allocations_by_rx := [];
     g_page_size := g_page_size st;
     g_initialized := false;
     os_state := fold_left (fun k kv => release (snd kv) k)
                   (g_jit_allocations_by_rw st) (os_state st) |}.

(** The kernel's answers to the four calls of one allocation. *)
Record alloc_replies := {
  on_memfd_create : reply;
  on_ftruncate : reply;
  on_mmap_rw : reply;
  on_mmap_rx : reply
}.

(** Return value, and what was last stored through each output slot
    ([None]: nothing was stored).  The two slots are distinct objects, as
    in the header's usage ([&rw_ptr], [&rx_ptr]). *)
Record alloc_result := {
  ret : Z;
  out_rw : option Z;
  out_rx : option Z
}.

Definition failed (slots : option Z) : alloc_result :=
  {| ret := -1; out_rw := slots; out_rx := slots |}.

(** [rw_slot] and [rx_slot] tell whether the output pointers are
    non-null. *)
Definition android_jit_alloc (sz : Z) (rw_slot rx_slot : bool)
    (o : alloc_replies) (st : jit_state) : alloc_result * jit_state :=
  if negb rw_slot || negb rx_slot
  then (failed None, with_os (set_errno EINVAL (os_state st)) st)
  else
    let st := if g_initialized st then st else snd (android_jit_init st) in
    let alloc_size := round_up_to_page (g_page_size st) sz in
    let '(fd, k) := sys_memfd_create (on_memfd_create o) (os_state st) in
    if fd <? 0 then (failed (Some nullptr), with_os k st)
    else
      let '(r, k) := sys_ftruncate (on_ftruncate o) fd alloc_size k in
      if r <? 0
      then (failed (Some nullptr), with_os (sys_close fd k) st)
      else
        let '(rw, k) :=
          sys_mmap (on_mmap_rw o) alloc_size PROT_READ_WRITE fd k in
        if rw =? MAP_FAILED
        then (failed (Some nullptr), with_os (sys_close fd k) st)
        else
          let '(rx, k) :=
            sys_mmap (on_mmap_rx o) alloc_size PROT_READ_EXEC fd k in
          if rx =? MAP_FAILED
          then (failed (Some nullptr),
                with_os (sys_close fd (sys_munmap rw alloc_size k)) st)
          else
            let alloc := {| rw_ptr := rw; rx_ptr := rx;
                            size := alloc_size; fd := fd |} in
            ({| ret := 0; out_rw := Some rw; out_rx := Some rx |},
             {| g_jit_allocations_by_rw :=
                  smap_assign rw alloc (g_jit_allocations_by_rw st);
                g_jit_allocations_by_rx :=
                  smap_assign rx rw (g_jit_allocations_by_rx st);
                g_page_size := g_page_size st;
                g_initialized := g_initialized st;
                os_state := k |}).

(** The [size] argument [sz] is never read; the mismatch of [rx_arg] is
    only logged. *)
Definition android_jit_free (rw_arg rx_arg sz : Z) (st : jit_state)
  : jit_state :=
  if (rw_arg =? nullptr) && (rx_arg =? nullptr) then st
  else
    match smap_find rw_arg (g_jit_allocations_by_rw st) with
    | None => st
    | Some alloc =>
        {| g_jit_allocations_by_rw :=
             smap_erase rw_arg (g_jit_allocations_by_rw st);
           g_jit_allocations_by_rx :=
             smap_erase (rx_ptr alloc) (g_jit_allocations_by_rx st);
           g_page_size := g_page_size st;
           g_initialized := g_initialized st;
           os_state := release alloc (os_state st) |}
    end.

(** The containment loop of [android_jit_rx_to_rw]. *)
Fixpoint scan_rx (p : Z) (m : list (Z * JitAllocation)) : Z :=
  match m with
  | [] => nullptr
  | (_, alloc) :: m' =>
      if (rx_ptr alloc <=? p) && (p <? to_size_t (rx_ptr alloc + size alloc))
      then to_size_t (rw_ptr alloc + (p - rx_ptr alloc))
      else scan_rx p m'
  end.

(** [None]: the exact match went through a dangling record pointer. *)
Definition android_jit_rx_to_rw (p : Z) (st : jit_state) : option Z :=
  if p =? nullptr then Some nullptr
  else
    match smap_find p (g_jit_allocations_by_rx st) with
    | Some node => option_map rw_ptr (deref st node)
    | None => Some (scan_rx p (g_jit_allocations_by_rw st))
    end.

(** The containment loop of [android_jit_rw_to_rx]. *)
Fixpoint scan_rw (p : Z) (m : list (Z * JitAllocation)) : Z :=
  match m with
  | [] => nullptr
  | (_, alloc) :: m' =>
      if (rw_ptr alloc <=? p) && (p <? to_size_t (rw_ptr alloc + size alloc))
      then to_size_t (rx_ptr alloc + (p - rw_ptr alloc))
      else scan_rw p m'
  end.

Definition android_jit_rw_to_rx (p : Z) (st : jit_state) : Z :=
  if p =? nullptr then nullptr
  else
    match smap_find p (g_jit_allocations_by_rw st) with
    | Some alloc => rx_ptr alloc
    | None => scan_rw p (g_jit_allocations_by_rw st)
    end.

Definition android_jit_page_size (st : jit_state) : Z * jit_state :=
  if g_page_size st =? 0
  then
    let probed := to_size_t (sys_sysconf_pagesize (os_state st)) in
    let page := if probed =? 0 then 4096 else probed in
    (page, {| g_jit_allocations_by_rw := g_jit_allocations_by_rw st;
              g_jit_allocations_by_rx := g_jit_allocations_by_rx st;
              g_page_size := page;
              g_initialized := g_initialized st;
              os_state := os_state st |})
  else (g_page_size st, st).

(** *** Runs of the interface *)

Inductive call :=
| Call_init
| Call_shutdown
| Call_alloc (sz : Z) (rw_slot rx_slot : bool) (o : alloc_replies)
| Call_free (rw_arg rx_arg sz : Z)
| Call_page_size.

Definition exec (c : call) (st : jit_state) : jit_state :=
  match c with
  | Call_init => snd (android_jit_init st)
  | Call_shutdown => android_jit_shutdown st
  | Call_alloc sz rws rxs o => snd (android_jit_alloc sz rws rxs o st)
  | Call_free rw rx sz => android_jit_free rw rx sz st
  | Call_page_size => snd (android_jit_page_size st)
  end.

(** The state at program start: the statics are zero-initialised. *)
Definition boot (k : os) : jit_state :=
  {| g_jit_allocations_by_rw := [];
     g_jit_allocations_by_rx := [];
     g_page_size := 0;
     g_initialized := false;
     os_state := k |}.

(** States the allocator can be in: start from any sound process image
    and call the interface in any order. *)
Inductive reachable : jit_state -> Prop :=
| reach_boot k : os_ok k -> reachable (boot k)
| reach_call c st : reachable st -> reachable (exec c st).

(** *** Vocabulary of the statements *)

(** [a] is a record of the registry: an open allocation. *)
Definition open (st : jit_state) (a : JitAllocation) : Prop :=
  smap_find (rw_ptr a) (g_jit_allocations_by_rw st) = Some a.

(** The page size an allocation rounds with: the cached one, probed
    first when the subsystem is not initialised. *)
Definition alloc_page (st : jit_state) : Z :=
  g_page_size (if g_initialized st then st else snd (android_jit_init st)).

(** The system calls of an allocation that fails after its argument
    check, by the step that failed; [N] is the rounded size. *)
Inductive failure_events (N : Z) : list syscall -> Prop :=
| fail_memfd_create :
    failure_events N [Sys_memfd_create (-1)]
| fail_ftruncate f :
    failure_events N
      [Sys_memfd_create f; Sys_ftruncate f N (-1); Sys_close f]
| fail_mmap_rw f :
    failure_events N
      [Sys_memfd_create f; Sys_ftruncate f N 0;
       Sys_mmap N PROT_READ_WRITE f MAP_FAILED; Sys_close f]
| fail_mmap_rx f rw :
    0 < N -> rw <> MAP_FAILED ->
    failure_events N
      [Sys_memfd_create f; Sys_ftruncate f N 0;
       Sys_mmap N PROT_READ_WRITE f rw;
       Sys_mmap N PROT_READ_EXEC f MAP_FAILED;
       Sys_munmap rw N; Sys_close f].

(** The three ways a call of [android_jit_alloc] ends. *)
Inductive alloc_spec (sz : Z) (rws rxs : bool) (st : jit_state)
  : alloc_result -> jit_state -> Prop :=
| alloc_null_slot :
    negb rws || negb rxs = true ->
    alloc_spec sz rws rxs st (failed None)
      (with_os (set_errno EINVAL (os_state st)) st)
| alloc_failure st' evs :
    rws = true -> rxs = true ->
    g_jit_allocations_by_rw st' = g_jit_allocations_by_rw st ->
    g_jit_allocations_by_rx st' = g_jit_allocations_by_rx st ->
    g_page_size st' = alloc_page st ->
    g_initialized st' = true ->
    os_pagesize (os_state st') = os_pagesize (os_state st) ->
    os_maps (os_state st') = os_maps (os_state st) ->
    os_fds (os_state st') = os_fds (os_state st) ->
    os_trace (os_state st') = os_trace (os_state st) ++ evs ->
    failure_events (round_up_to_page (alloc_page st) sz) evs ->
    alloc_spec sz rws rxs st (failed (Some nullptr)) st'
| alloc_success f rw rx k1 k2 :
    let N := round_up_to_page (alloc_page st) sz in
    rws = true -> rxs = true ->
    fd_fresh (os_state st) f ->
    mmap_fits (os_state st) rw N ->
    os_pagesize k1 = os_pagesize (os_state st) ->
    os_maps k1 = <[rw:=N]> (os_maps (os_state st)) ->
    mmap_fits k1 rx N ->
    os_pagesize k2 = os_pagesize (os_state st) ->
    os_maps k2 = <[rx:=N]> (os_maps k1) ->
    os_fds k2 = {[f]} ∪ os_fds (os_state st) ->
    os_trace k2 = os_trace (os_state st) ++
                  [Sys_memfd_create f; Sys_ftruncate f N 0;
                   Sys_mmap N PROT_READ_WRITE f rw;
                   Sys_mmap N PROT_READ_EXEC f rx] ->
    alloc_spec sz rws rxs st
      {| ret := 0; out_rw := Some rw; out_rx := Some rx |}
      {| g_jit_allocations_by_rw :=
           smap_assign rw {| rw_ptr := rw; rx_ptr := rx; size := N; fd := f |}
             (g_jit_allocations_by_rw st);
         g_jit_allocations_by_rx :=
           smap_assign rx rw (g_jit_allocations_by_rx st);
         g_page_size := alloc_page st;
         g_initialized := true;
         os_state := k2 |}.

(** [k'] has no mapping and no descriptor that [k] has not. *)
Definition shrinks (k' k : os) : Prop :=
  (forall b, os_maps k' !! b = None \/ os_maps k' !! b = os_maps k !! b) /\
  (forall x, x ∈ os_fds k' -> x ∈ os_fds k).

(** *** The invariant of the registry *)

(** A record stored under key [k] describes two live mappings of its
    size, owns an open descriptor, and is indexed by its executable
    base.  No executable base is a writable base, and no descriptor is
    shared ([inv_cross], [inv_fd]). *)
Definition record_ok (st : jit_state) (k : Z) (a : JitAllocation) : Prop :=
  rw_ptr a = k /\
  os_maps (os_state st) !! rw_ptr a = Some (size a) /\
  os_maps (os_state st) !! rx_ptr a = Some (size a) /\
  0 <= fd a /\ fd a ∈ os_fds (os_state st) /\
  smap_find (rx_ptr a) (g_jit_allocations_by_rx st) = Some k.

Record inv (st : jit_state) : Prop := {
  inv_os : os_ok (os_state st);
  inv_page :
    g_initialized st = true ->
    g_page_size st = os_pagesize (os_state st);
  inv_sorted : smap_sorted (g_jit_allocations_by_rw st);
  inv_rw : forall k a,
    smap_find k (g_jit_allocations_by_rw st) = Some a -> record_ok st k a;
  inv_rx : forall x k,
    smap_find x (g_jit_allocations_by_rx st) = Some k ->
    exists a, smap_find k (g_jit_allocations_by_rw st) = Some a /\
              rx_ptr a = x;
  inv_cross : forall k a k' a',
    smap_find k (g_jit_allocations_by_rw st) = Some a ->
    smap_find k' (g_jit_allocations_by_rw st) = Some a' ->
    rx_ptr a <> rw_ptr a';
  inv_fd : forall k a k' a',
    smap_find k (g_jit_allocations_by_rw st) = Some a ->
    smap_find k' (g_jit_allocations_by_rw st) = Some a' ->
    fd a = fd a' -> k = k'
}.

(** A run of calls, first call first. *)
Definition run (cs : list call) (st : jit_state) : jit_state :=
  fold_left (fun st c => exec c st) cs st.

(** Some mapping call among [evs] succeeded with a range that holds the
    address [p]. *)
Definition mapped_over (p : Z) (evs : list syscall) : bool :=
  existsb (fun e =>
             match e with
             | Sys_mmap len _ _ res =>
                 negb (res =? MAP_FAILED) && (res <=? p) && (p <? res + len)
             | _ => false
             end) evs.

(** What the lifecycle keeps besides [inv]: the cached page size is unset
    or the system's, records exist only while the subsystem is
    initialised, and every recorded size is a multiple of the page size. *)
Record lifecycle_inv (st : jit_state) : Prop := {
  page_cached :
    g_page_size st = 0 \/ g_page_size st = os_pagesize (os_state st);
  uninit_empty :
    g_initialized st = false ->
    g_jit_allocations_by_rw st = [] /\ g_jit_allocations_by_rx st = [];
  sizes_paged : forall k a,
    smap_find k (g_jit_allocations_by_rw st) = Some a ->
    size a mod os_pagesize (os_state st) = 0
}.

(** The system calls that release one record. *)
Definition release_calls (a : JitAllocation) : list syscall :=
  [Sys_munmap (rw_ptr a) (size a); Sys_munmap (rx_ptr a) (size a);
   Sys_close (fd a)].

End Jit.
Export Jit.

(** ** Concrete runs *)
Module Scenario.

(** A process with 4096-byte pages, nothing mapped yet, and the three
    standard descriptors open. *)
Definition os0 : os :=
  {| os_pagesize := 4096; os_maps := ∅; os_fds := {[0; 1; 2]};
     os_errno := 0; os_trace := [] |}.

(** Every call of the allocation is granted. *)
Definition grants (f rw rx : Z) : alloc_replies :=
  {| on_memfd_create := Grant f; on_ftruncate := Grant 0;
     on_mmap_rw := Grant rw; on_mmap_rx := Grant rx |}.

(** Mappings are placed downwards from [TOP], each in the highest gap
    that fits, the way the kernel lays out [mmap] regions. *)
Definition TOP : Z := 481036337152.   (* 0x7000000000 *)
Definition page (i : Z) : Z := TOP - i * 4096.

(** One allocation of 100 bytes. *)
Definition run_one : alloc_result * jit_state :=
  android_jit_alloc 100 true true (grants 3 (page 1) (page 2)) (boot os0).
Definition st_one : jit_state := snd run_one.
Definition alloc_one : JitAllocation :=
  {| rw_ptr := page 1; rx_ptr := page 2; size := 4096; fd := 3 |}.

(** Two one-page allocations A and B; A is freed; a two-page allocation
    C then gets the gap A left for its writable view, which ends up
    right behind the writable view of B. *)
Definition calls_adjacent : list call :=
  [Call_alloc 100 true true (grants 3 (page 1) (page 2));
   Call_alloc 100 true true (grants 4 (page 3) (page 4));
   Call_free (page 1) (page 2) 100;
   Call_alloc 8000 true true (grants 3 (page 2) (page 6))].
Definition st_adjacent : jit_state :=
  fold_left (fun st c => exec c st) calls_adjacent (boot os0).
Definition alloc_B : JitAllocation :=
  {| rw_ptr := page 3; rx_ptr := page 4; size := 4096; fd := 4 |}.

(** The subsystem is shut down and initialised again after the first
    run, and a new allocation is made. *)
Definition st_restarted : jit_state :=
  snd (android_jit_init (android_jit_shutdown st_one)).
Definition run_restarted : alloc_result * jit_state :=
  android_jit_alloc 5000 true true (grants 3 (page 2) (page 4)) st_restarted.

(** A zero-sized request, every call granted. *)
Definition run_zero : alloc_result * jit_state :=
  android_jit_alloc 0 true true (grants 3 (page 1) (page 2)) (boot os0).

(** A zero-sized request whose backing store is refused. *)
Definition run_zero_refused : alloc_result * jit_state :=
  android_jit_alloc 0 true true
    {| on_memfd_create := Refuse EMFILE; on_ftruncate := Grant 0;
       on_mmap_rw := Grant (page 1); on_mmap_rx := Grant (page 2) |}
    (boot os0).

(** A request whose executable mapping is refused. *)
Definition run_rx_refused : alloc_result * jit_state :=
  android_jit_alloc 100 true true
    {| on_memfd_create := Grant 3; on_ftruncate := Grant 0;
       on_mmap_rw := Grant (page 1); on_mmap_rx := Refuse ENOMEM |}
    (boot os0).

(** Two open allocations: the first run, then a second allocation. *)
Definition st_two : jit_state :=
  exec (Call_alloc 100 true true (grants 4 (page 3) (page 4))) st_one.

(** After the first allocation is freed: a failed free, a new allocation
    placed elsewhere, and a query of the page size. *)
Definition calls_elsewhere : list call :=
  [Call_free (page 1) (page 2) 100;
   Call_alloc 100 true true (grants 4 (page 3) (page 4));
   Call_page_size].

(** A request so large that rounding it up wraps around. *)
Definition run_oversized : alloc_result * jit_state :=
  android_jit_alloc (SIZE_MOD - 5) true true (grants 3 (page 1) (page 2))
    (boot os0).

End Scenario.

(** * Properties *)

(** ** Rounding to the page size *)
Section RoundUp.

Lemma SIZE_MOD_value : SIZE_MOD = 18446744073709551616.
Proof. reflexivity. Qed.

Lemma to_size_t_small z : 0 <= z < SIZE_MOD -> to_size_t z = z.
Proof. intros. unfold to_size_t. apply Z.mod_small. assumption. Qed.

Lemma pow2_below_word n : 0 <= n < 63 -> 0 < 2 ^ n < SIZE_MOD.
Proof.
  intros Hn. split; [apply Z.pow_pos_nonneg; lia|].
  unfold SIZE_MOD. apply Z.pow_lt_mono_r; lia.
Qed.

(** Masking with [~(2^n - 1)] clears the low [n] bits. *)
Lemma mask_low_bits n x :
  0 <= n < 63 -> 0 <= x < SIZE_MOD ->
  Z.land x (size_not (to_size_t (2 ^ n - 1))) = 2 ^ n * (x / 2 ^ n).
Proof.
  intros Hn Hx. pose proof (pow2_below_word n Hn) as Hp.
  rewrite to_size_t_small by lia.
  unfold size_not, to_size_t, SIZE_MOD.
  replace (2 ^ n - 1) with (Z.ones n) by (rewrite Z.ones_equiv; lia).
  rewrite <- Z.land_ones by lia.
  rewrite Z.land_assoc, (Z.land_comm x), <- Z.land_assoc.
  rewrite (Z.land_ones x 64) by lia.
  rewrite Z.mod_small by (unfold SIZE_MOD in Hx; lia).
  rewrite Z.land_comm, <- Z.ldiff_land, Z.ldiff_ones_r by lia.
  rewrite Z.shiftl_mul_pow2, Z.shiftr_div_pow2 by lia. lia.
Qed.

(** Without wrap-around the result is the least multiple of the page size
    that is at least [sz]; with wrap-around it is zero. *)
Lemma round_up_to_page_pow2 n sz :
  0 <= n < 63 -> 0 <= sz < SIZE_MOD ->
  let N := round_up_to_page (2 ^ n) sz in
  0 <= N < SIZE_MOD /\ N mod 2 ^ n = 0 /\
  (N <> 0 -> sz <= N < sz + 2 ^ n) /\
  (sz = 0 -> N = 0).
Proof.
  intros Hn Hsz N. pose proof (pow2_below_word n Hn) as Hp.
  assert (Hx : 0 <= to_size_t (sz + 2 ^ n - 1) < SIZE_MOD)
    by (apply Z.mod_pos_bound; rewrite SIZE_MOD_value; lia).
  assert (HN : N = 2 ^ n * (to_size_t (sz + 2 ^ n - 1) / 2 ^ n))
    by (apply mask_low_bits; assumption).
  assert (Hdiv : forall x, 0 <= x ->
            x - 2 ^ n < 2 ^ n * (x / 2 ^ n) <= x /\ 0 <= 2 ^ n * (x / 2 ^ n)).
  { intros x Hx0. pose proof (Z.div_mod x (2 ^ n) ltac:(lia)) as Hdm.
    pose proof (Z.mod_pos_bound x (2 ^ n) ltac:(lia)).
    pose proof (Z.div_pos x (2 ^ n) Hx0 ltac:(lia)). nia. }
  split; [|split; [|split]].
  - pose proof (Hdiv _ (proj1 Hx)). lia.
  - rewrite HN, Z.mul_comm. apply Z.mod_mul. lia.
  - intros HN0.
    destruct (Z_lt_ge_dec (sz + 2 ^ n - 1) SIZE_MOD) as [Hno|Hwrap].
    + rewrite to_size_t_small in HN by lia.
      pose proof (Hdiv (sz + 2 ^ n - 1) ltac:(lia)). lia.
    + exfalso. apply HN0. rewrite HN.
      assert (Hw : to_size_t (sz + 2 ^ n - 1) = sz + 2 ^ n - 1 - SIZE_MOD).
      { unfold to_size_t. symmetry.
        apply (Z.mod_unique _ _ 1); lia. }
      rewrite Hw, Z.div_small by lia. lia.
  - intros ->. rewrite HN, to_size_t_small by lia.
    rewrite Z.div_small by lia. lia.
Qed.

End RoundUp.

(** ** [std::map] operations *)
Section StdMapFacts.
Context {V : Type}.
Implicit Types (m : list (Z * V)) (k : Z) (v : V).

Lemma smap_find_assign k v k' m :
  smap_find k' (smap_assign k v m) =
  if k =? k' then Some v else smap_find k' m.
Proof.
  induction m as [|[k0 v0] m IH]; simpl.
  - reflexivity.
  - destruct (k <? k0) eqn:Hlt; simpl.
    + reflexivity.
    + destruct (k =? k0) eqn:Heq; simpl.
      * apply Z.eqb_eq in Heq. subst k0.
        destruct (k =? k'); reflexivity.
      * rewrite IH. destruct (k0 =? k') eqn:H0; [|reflexivity].
        apply Z.eqb_eq in H0. subst k0. rewrite Heq. reflexivity.
Qed.

Lemma smap_find_erase k k' m :
  smap_find k' (smap_erase k m) =
  if k =? k' then None else smap_find k' m.
Proof.
  induction m as [|[k0 v0] m IH]; simpl.
  - destruct (k =? k'); reflexivity.
  - destruct (k0 =? k) eqn:H0; simpl.
    + apply Z.eqb_eq in H0. subst k0. rewrite IH.
      destruct (k =? k'); reflexivity.
    + rewrite IH. destruct (k0 =? k') eqn:H1; [|reflexivity].
      apply Z.eqb_eq in H1. subst k0. rewrite Z.eqb_sym, H0. reflexivity.
Qed.

Lemma smap_find_In k v m : smap_find k m = Some v -> In (k, v) m.
Proof.
  induction m as [|[k0 v0] m IH]; simpl; [discriminate|].
  destruct (k0 =? k) eqn:H0.
  - apply Z.eqb_eq in H0. intros [= ->]. subst. left. reflexivity.
  - intros H. right. apply IH, H.
Qed.

Lemma smap_In_find k v m :
  smap_sorted m -> In (k, v) m -> smap_find k m = Some v.
Proof.
  induction m as [|[k0 v0] m IH]; simpl; [contradiction|].
  intros [Hlt Hs] [Heq|Hin].
  - injection Heq as -> ->. rewrite Z.eqb_refl. reflexivity.
  - specialize (Hlt _ _ Hin).
    replace (k0 =? k) with false by (symmetry; apply Z.eqb_neq; lia).
    apply IH; assumption.
Qed.

Lemma smap_In_assign k v k' v' m :
  In (k', v') (smap_assign k v m) -> (k' = k /\ v' = v) \/ In (k', v') m.
Proof.
  induction m as [|[k0 v0] m IH]; simpl.
  - intros [[= <- <-]|[]]. left. split; reflexivity.
  - destruct (k <? k0).
    + intros [[= <- <-]|H]; [left; split; reflexivity|right; exact H].
    + destruct (k =? k0).
      * intros [[= <- <-]|H]; [left; split; reflexivity|right; right; exact H].
      * intros [H|H]; [right; left; exact H|].
        destruct (IH H) as [?|?]; [left; assumption|right; right; assumption].
Qed.

Lemma smap_sorted_assign k v m :
  smap_sorted m -> smap_sorted (smap_assign k v m).
Proof.
  induction m as [|[k0 v0] m IH]; simpl.
  - intros _. split; [intros ? ? []|exact I].
  - intros [Hlt Hs].
    destruct (k <? k0) eqn:H1; [apply Z.ltb_lt in H1|apply Z.ltb_ge in H1].
    + simpl. split; [|split; assumption].
      intros k' v' [[= <- <-]|Hin]; [assumption|].
      specialize (Hlt _ _ Hin). lia.
    + destruct (k =? k0) eqn:H2;
        [apply Z.eqb_eq in H2|apply Z.eqb_neq in H2]; simpl.
      * subst k0. split; assumption.
      * split; [|apply IH; assumption].
        intros k' v' Hin.
        destruct (smap_In_assign _ _ _ _ _ Hin) as [[-> _]|Hin'];
          [lia|eapply Hlt; eassumption].
Qed.

Lemma smap_In_erase k k' v' m :
  In (k', v') (smap_erase k m) -> In (k', v') m /\ k' <> k.
Proof.
  induction m as [|[k0 v0] m IH]; simpl; [contradiction|].
  destruct (k0 =? k) eqn:H0.
  - intros H. destruct (IH H). split; [right|]; assumption.
  - apply Z.eqb_neq in H0.
    intros [[= <- <-]|H]; [split; [left; reflexivity|assumption]|].
    destruct (IH H). split; [right|]; assumption.
Qed.

Lemma smap_sorted_erase k m : smap_sorted m -> smap_sorted (smap_erase k m).
Proof.
  induction m as [|[k0 v0] m IH]; simpl; [trivial|].
  intros [Hlt Hs]. destruct (k0 =? k); [apply IH, Hs|].
  simpl. split; [|apply IH, Hs].
  intros k' v' Hin. apply smap_In_erase in Hin as [Hin _].
  eapply Hlt, Hin.
Qed.

End StdMapFacts.

(** ** System calls *)
Section OSFacts.
Implicit Types (k : os).

(** [os_ok] reads only the page size and the table of mappings. *)
Lemma os_ok_same_maps k k' :
  os_pagesize k' = os_pagesize k -> os_maps k' = os_maps k ->
  os_ok k -> os_ok k'.
Proof. unfold os_ok. intros -> ->. trivial. Qed.

Lemma mmap_fits_unmapped k a len :
  os_ok k -> mmap_fits k a len -> os_maps k !! a = None.
Proof.
  intros (_ & Hb & _) (Hlen & _ & _ & _ & Hd).
  destruct (os_maps k !! a) as [l|] eqn:Ha; [|reflexivity].
  pose proof (Hb _ _ Ha). pose proof (Hd _ _ Ha). simpl in *. lia.
Qed.

Lemma os_ok_insert k k' a len :
  os_ok k -> mmap_fits k a len ->
  os_pagesize k' = os_pagesize k ->
  os_maps k' = <[a:=len]> (os_maps k) ->
  os_ok k'.
Proof.
  intros (Hp & Hb & Hd) (Hlen & Ha & _ & Hlim & Hfree) Hpage Hmaps.
  unfold os_ok. rewrite Hpage, Hmaps. split; [exact Hp|split].
  - apply map_Forall_insert_2; [lia|exact Hb].
  - intros b1 l1 b2 l2 H1 H2 Hne.
    rewrite lookup_insert in H1, H2.
    destruct (decide (a = b1)) as [<-|]; destruct (decide (a = b2)) as [<-|];
      simplify_eq.
    + specialize (Hfree _ _ H2). simpl in Hfree. lia.
    + specialize (Hfree _ _ H1). simpl in Hfree. lia.
    + eapply Hd; eassumption.
Qed.

Lemma os_ok_delete k k' a :
  os_ok k ->
  os_pagesize k' = os_pagesize k ->
  os_maps k' = delete a (os_maps k) ->
  os_ok k'.
Proof.
  intros (Hp & Hb & Hd) Hpage Hmaps.
  unfold os_ok. rewrite Hpage, Hmaps. split; [exact Hp|split].
  - apply map_Forall_delete, Hb.
  - intros b1 l1 b2 l2 H1 H2 Hne.
    apply lookup_delete_Some in H1 as [_ H1].
    apply lookup_delete_Some in H2 as [_ H2].
    eapply Hd; eassumption.
Qed.

Lemma sys_memfd_create_spec r k fd k' :
  sys_memfd_create r k = (fd, k') ->
  os_pagesize k' = os_pagesize k /\ os_maps k' = os_maps k /\
  os_trace k' = os_trace k ++ [Sys_memfd_create fd] /\
  ((fd = -1 /\ os_fds k' = os_fds k) \/
   (fd_fresh k fd /\ os_fds k' = {[fd]} ∪ os_fds k)).
Proof.
  unfold sys_memfd_create. destruct r as [v|e].
  - destruct (decide (fd_fresh k v)) as [Hf|_]; intros [= <- <-]; simpl;
      repeat split; auto.
  - intros [= <- <-]; simpl; repeat split; auto.
Qed.

Lemma sys_ftruncate_spec r fd len k res k' :
  sys_ftruncate r fd len k = (res, k') ->
  os_pagesize k' = os_pagesize k /\ os_maps k' = os_maps k /\
  os_fds k' = os_fds k /\
  os_trace k' = os_trace k ++ [Sys_ftruncate fd len res] /\
  (res = 0 \/ res = -1).
Proof.
  unfold sys_ftruncate. destruct r; intros [= <- <-]; simpl;
    repeat split; auto.
Qed.

Lemma sys_mmap_spec r len p fd k a k' :
  sys_mmap r len p fd k = (a, k') ->
  os_pagesize k' = os_pagesize k /\ os_fds k' = os_fds k /\
  os_trace k' = os_trace k ++ [Sys_mmap len p fd a] /\
  ((a = MAP_FAILED /\ os_maps k' = os_maps k) \/
   (a <> MAP_FAILED /\ mmap_fits k a len /\
    os_maps k' = <[a:=len]> (os_maps k))).
Proof.
  unfold sys_mmap. destruct (len =? 0).
  { intros [= <- <-]; simpl; repeat split; auto. }
  destruct r as [v|e].
  - destruct (decide (mmap_fits k v len)) as [Hf|_]; intros [= <- <-]; simpl;
      repeat split; auto.
    right. split; [|split; [exact Hf|reflexivity]].
    destruct Hf as (? & ? & _ & ? & _). unfold MAP_FAILED. lia.
  - intros [= <- <-]; simpl; repeat split; auto.
Qed.

Lemma sys_munmap_spec addr len k :
  os_pagesize (sys_munmap addr len k) = os_pagesize k /\
  os_fds (sys_munmap addr len k) = os_fds k /\
  os_trace (sys_munmap addr len k) = os_trace k ++ [Sys_munmap addr len] /\
  ((os_maps k !! addr = Some len /\
    os_maps (sys_munmap addr len k) = delete addr (os_maps k)) \/
   (os_maps k !! addr <> Some len /\
    os_maps (sys_munmap addr len k) = os_maps k)).
Proof.
  unfold sys_munmap.
  destruct (decide (os_maps k !! addr = Some len)); simpl;
    repeat split; auto.
Qed.

Lemma fds_restore (f : Z) (s : gset Z) : f ∉ s -> ({[f]} ∪ s) ∖ {[f]} = s.
Proof.
  intros Hf. apply set_eq. intros x.
  rewrite elem_of_difference, elem_of_union, elem_of_singleton.
  split; [intros [[->|Hx] Hne]; [contradiction|exact Hx]|].
  intros Hx. split; [right; exact Hx|]. intros ->. contradiction.
Qed.

Lemma sys_close_spec fd k :
  os_pagesize (sys_close fd k) = os_pagesize k /\
  os_maps (sys_close fd k) = os_maps k /\
  os_fds (sys_close fd k) = os_fds k ∖ {[fd]} /\
  os_trace (sys_close fd k) = os_trace k ++ [Sys_close fd].
Proof. unfold sys_close. simpl. repeat split. Qed.

Lemma os_ok_munmap addr len k : os_ok k -> os_ok (sys_munmap addr len k).
Proof.
  intros Hk. destruct (sys_munmap_spec addr len k) as (Hp & _ & _ & [[_ Hm]|[_ Hm]]).
  - eapply os_ok_delete; eassumption.
  - eapply os_ok_same_maps; eassumption.
Qed.

Lemma os_ok_close fd k : os_ok k -> os_ok (sys_close fd k).
Proof. apply os_ok_same_maps; reflexivity. Qed.

End OSFacts.

(** Reduce the projections of the state, leaving the system calls
    folded. *)
Ltac jit_fields :=
  unfold with_os;
  cbn [os_state g_jit_allocations_by_rw g_jit_allocations_by_rx
       g_page_size g_initialized ret out_rw out_rx].

(** ** One call of [android_jit_alloc] *)
Section AllocSpec.

Lemma alloc_page_ok st :
  inv st -> alloc_page st = os_pagesize (os_state st).
Proof.
  intros Hinv. unfold alloc_page.
  destruct (g_initialized st) eqn:Hi.
  - apply inv_page; assumption.
  - unfold android_jit_init. rewrite Hi. simpl.
    destruct (inv_os _ Hinv) as ((n & Hn & Hp) & _).
    unfold sys_sysconf_pagesize. rewrite Hp.
    pose proof (pow2_below_word n Hn).
    rewrite to_size_t_small by lia.
    replace (2 ^ n =? 0) with false by (symmetry; apply Z.eqb_neq; lia).
    reflexivity.
Qed.

Lemma alloc_spec_holds sz rws rxs o st r st' :
  os_ok (os_state st) ->
  android_jit_alloc sz rws rxs o st = (r, st') ->
  alloc_spec sz rws rxs st r st'.
Proof.
  intros Hos. unfold android_jit_alloc.
  destruct (negb rws || negb rxs) eqn:Hslots.
  { intros [= <- <-]. constructor. exact Hslots. }
  apply orb_false_elim in Hslots as [Hrw Hrx].
  apply negb_false_iff in Hrw, Hrx.
  set (st0 := if g_initialized st then st else snd (android_jit_init st)).
  assert (H0 : g_jit_allocations_by_rw st0 = g_jit_allocations_by_rw st /\
               g_jit_allocations_by_rx st0 = g_jit_allocations_by_rx st /\
               os_state st0 = os_state st /\ g_initialized st0 = true /\
               g_page_size st0 = alloc_page st).
  { unfold alloc_page. fold st0. subst st0. unfold android_jit_init.
    destruct (g_initialized st) eqn:Hi; simpl; auto. }
  destruct H0 as (Hbrw & Hbrx & Hk0 & Hinit0 & Hpage0).
  rewrite Hpage0, Hk0.
  set (N := round_up_to_page (alloc_page st) sz).
  destruct (sys_memfd_create _ _) as [f k1] eqn:E1.
  apply sys_memfd_create_spec in E1 as (P1 & M1 & T1 & F1).
  destruct F1 as [[-> F1]|[Hfresh F1]].
  { cbn [Z.ltb Z.compare]. intros [= <- <-].
    eapply alloc_failure with (evs := [Sys_memfd_create (-1)]); simpl;
      try congruence. constructor. }
  replace (f <? 0) with false
    by (symmetry; apply Z.ltb_ge; destruct Hfresh; lia).
  destruct (sys_ftruncate _ _ _ _) as [res k2] eqn:E2.
  apply sys_ftruncate_spec in E2 as (P2 & M2 & F2 & T2 & R2).
  destruct R2 as [-> | ->].
  2:{ cbn [Z.ltb Z.compare]. intros [= <- <-].
      destruct (sys_close_spec f k2) as (P3 & M3 & F3 & T3).
      eapply alloc_failure with
        (evs := [Sys_memfd_create f; Sys_ftruncate f N (-1); Sys_close f]);
        jit_fields; try congruence.
      - rewrite F3, F2, F1. apply fds_restore, Hfresh.
      - rewrite T3, T2, T1, <- !app_assoc. reflexivity.
      - constructor. }
  cbn [Z.ltb Z.compare].
  destruct (sys_mmap _ _ PROT_READ_WRITE _ _) as [rw k3] eqn:E3.
  apply sys_mmap_spec in E3 as (P3 & F3 & T3 & R3).
  destruct R3 as [[-> M3]|(Hrwok & Hfit3 & M3)].
  { rewrite Z.eqb_refl. intros [= <- <-].
    destruct (sys_close_spec f k3) as (P4 & M4 & F4 & T4).
    eapply alloc_failure with
      (evs := [Sys_memfd_create f; Sys_ftruncate f N 0;
               Sys_mmap N PROT_READ_WRITE f MAP_FAILED; Sys_close f]);
      jit_fields; try congruence.
    - rewrite F4, F3, F2, F1. apply fds_restore, Hfresh.
    - rewrite T4, T3, T2, T1, <- !app_assoc. reflexivity.
    - constructor. }
  replace (rw =? MAP_FAILED) with false
    by (symmetry; apply Z.eqb_neq; assumption).
  assert (Hfit : mmap_fits (os_state st) rw N).
  { unfold mmap_fits in *. rewrite <- P1, <- P2, <- M1, <- M2. exact Hfit3. }
  destruct (sys_mmap _ _ PROT_READ_EXEC _ _) as [rx k4] eqn:E4.
  apply sys_mmap_spec in E4 as (P4 & F4 & T4 & R4).
  destruct R4 as [[-> M4]|(Hrxok & Hfit4 & M4)].
  { rewrite Z.eqb_refl. intros [= <- <-].
    destruct (sys_munmap_spec rw N k4) as (P5 & F5 & T5 & M5).
    destruct (sys_close_spec f (sys_munmap rw N k4)) as (P6 & M6 & F6 & T6).
    eapply alloc_failure with
      (evs := [Sys_memfd_create f; Sys_ftruncate f N 0;
               Sys_mmap N PROT_READ_WRITE f rw;
               Sys_mmap N PROT_READ_EXEC f MAP_FAILED;
               Sys_munmap rw N; Sys_close f]);
      jit_fields; try congruence.
    - rewrite M6. destruct M5 as [[_ ->]|[Hno _]].
      + rewrite M4, M3, M2, M1. rewrite delete_insert_eq.
        apply delete_id. eapply mmap_fits_unmapped; eassumption.
      + exfalso. apply Hno. rewrite M4, M3. apply lookup_insert_eq.
    - rewrite F6, F5, F4, F3, F2, F1. apply fds_restore, Hfresh.
    - rewrite T6, T5, T4, T3, T2, T1, <- !app_assoc. reflexivity.
    - constructor; [apply Hfit|assumption]. }
  replace (rx =? MAP_FAILED) with false
    by (symmetry; apply Z.eqb_neq; assumption).
  intros [= <- <-]. rewrite Hbrw, Hbrx, Hinit0.
  eapply alloc_success with (k1 := k3); try assumption; try congruence.
  - rewrite M3, M2, M1. reflexivity.
  - rewrite T4, T3, T2, T1, <- !app_assoc. reflexivity.
Qed.

End AllocSpec.

(** ** The invariant holds in every reachable state *)
Section Invariant.

(** The invariant reads the two indexes, the mappings, the descriptors
    and the page size. *)
Lemma inv_same_resources st st' :
  g_jit_allocations_by_rw st' = g_jit_allocations_by_rw st ->
  g_jit_allocations_by_rx st' = g_jit_allocations_by_rx st ->
  os_pagesize (os_state st') = os_pagesize (os_state st) ->
  os_maps (os_state st') = os_maps (os_state st) ->
  os_fds (os_state st') = os_fds (os_state st) ->
  (g_initialized st' = true ->
   g_page_size st' = os_pagesize (os_state st)) ->
  inv st -> inv st'.
Proof.
  intros Hrw Hrx Hp Hm Hf Hpage [Hos Hpg Hs Hr Hx Hc Hfd].
  split; rewrite ?Hrw, ?Hrx; try assumption.
  - eapply os_ok_same_maps; eassumption.
  - rewrite Hp. exact Hpage.
  - intros k a Hk. specialize (Hr k a Hk). unfold record_ok in *.
    rewrite Hm, Hf, Hrx. exact Hr.
Qed.

Lemma inv_boot k : os_ok k -> inv (boot k).
Proof.
  intros Hk. split; simpl; try discriminate; trivial.
Qed.

Lemma inv_init st : inv st -> inv (snd (android_jit_init st)).
Proof.
  intros Hinv. pose proof (alloc_page_ok st Hinv) as Hpage.
  unfold alloc_page in Hpage. unfold android_jit_init in *.
  destruct (g_initialized st) eqn:Hi; [exact Hinv|].
  eapply inv_same_resources; [..|exact Hinv]; try reflexivity.
  intros _. exact Hpage.
Qed.

Lemma inv_page_size st : inv st -> inv (snd (android_jit_page_size st)).
Proof.
  intros Hinv. unfold android_jit_page_size.
  destruct (g_page_size st =? 0) eqn:Hz; [|exact Hinv].
  eapply inv_same_resources; [..|exact Hinv]; try reflexivity.
  intros _. simpl.
  destruct (inv_os _ Hinv) as ((n & Hn & Hp) & _).
  unfold sys_sysconf_pagesize. rewrite Hp.
  pose proof (pow2_below_word n Hn).
  rewrite to_size_t_small by lia.
  replace (2 ^ n =? 0) with false by (symmetry; apply Z.eqb_neq; lia).
  reflexivity.
Qed.

Lemma os_ok_release a k : os_ok k -> os_ok (release a k).
Proof.
  intros Hk. unfold release.
  assert (H1 : os_ok (if rw_ptr a =? nullptr then k
                      else sys_munmap (rw_ptr a) (size a) k))
    by (destruct (rw_ptr a =? nullptr); [|apply os_ok_munmap]; exact Hk).
  revert H1. generalize (if rw_ptr a =? nullptr then k
                         else sys_munmap (rw_ptr a) (size a) k).
  intros k1 H1.
  assert (H2 : os_ok (if rx_ptr a =? nullptr then k1
                      else sys_munmap (rx_ptr a) (size a) k1))
    by (destruct (rx_ptr a =? nullptr); [|apply os_ok_munmap]; exact H1).
  revert H2. generalize (if rx_ptr a =? nullptr then k1
                         else sys_munmap (rx_ptr a) (size a) k1).
  intros k2 H2.
  destruct (0 <=? fd a); [apply os_ok_close|]; exact H2.
Qed.

Lemma inv_shutdown st : inv st -> inv (android_jit_shutdown st).
Proof.
  intros Hinv. split; simpl; try discriminate; trivial.
  pose proof (inv_os _ Hinv) as Hos. revert Hos.
  generalize (os_state st).
  induction (g_jit_allocations_by_rw st) as [|[k0 a0] m IH]; simpl; intros k Hk.
  - exact Hk.
  - apply IH, os_ok_release, Hk.
Qed.

(** The release of a registered record removes exactly its two mappings
    and its descriptor. *)
Lemma release_registered st k a :
  inv st -> smap_find k (g_jit_allocations_by_rw st) = Some a ->
  let os' := release a (os_state st) in
  os_pagesize os' = os_pagesize (os_state st) /\
  os_maps os' = delete (rx_ptr a) (delete (rw_ptr a) (os_maps (os_state st))) /\
  os_fds os' = os_fds (os_state st) ∖ {[fd a]} /\
  os_trace os' = os_trace (os_state st) ++
                 [Sys_munmap (rw_ptr a) (size a);
                  Sys_munmap (rx_ptr a) (size a); Sys_close (fd a)].
Proof.
  intros Hinv Hk.
  destruct (inv_rw _ Hinv _ _ Hk) as (_ & Hmrw & Hmrx & Hfd & _).
  pose proof (inv_cross _ Hinv _ _ _ _ Hk Hk) as Hne.
  destruct (inv_os _ Hinv) as (_ & Hb & _).
  pose proof (Hb _ _ Hmrw) as Hbrw. pose proof (Hb _ _ Hmrx) as Hbrx.
  simpl in Hbrw, Hbrx.
  unfold release, nullptr.
  replace (rw_ptr a =? 0) with false by (symmetry; apply Z.eqb_neq; lia).
  replace (rx_ptr a =? 0) with false by (symmetry; apply Z.eqb_neq; lia).
  replace (0 <=? fd a) with true by (symmetry; apply Z.leb_le; lia).
  set (k1 := sys_munmap (rw_ptr a) (size a) (os_state st)).
  destruct (sys_munmap_spec (rw_ptr a) (size a) (os_state st))
    as (P1 & F1 & T1 & [[_ M1]|[Hno _]]); [|contradiction].
  fold k1 in P1, F1, T1, M1.
  destruct (sys_munmap_spec (rx_ptr a) (size a) k1)
    as (P2 & F2 & T2 & [[_ M2]|[Hno _]]).
  2:{ exfalso. apply Hno. rewrite M1, lookup_delete_ne by congruence.
      exact Hmrx. }
  set (k2 := sys_munmap (rx_ptr a) (size a) k1) in *.
  destruct (sys_close_spec (fd a) k2) as (P3 & M3 & F3 & T3).
  cbv zeta. repeat split.
  - congruence.
  - rewrite M3, M2, M1. reflexivity.
  - rewrite F3, F2, F1. reflexivity.
  - rewrite T3, T2, T1, <- !app_assoc. reflexivity.
Qed.

Lemma inv_alloc sz rws rxs o st :
  inv st -> inv (snd (android_jit_alloc sz rws rxs o st)).
Proof.
  intros Hinv.
  destruct (android_jit_alloc sz rws rxs o st) as [r st'] eqn:E.
  apply alloc_spec_holds in E; [|apply inv_os, Hinv].
  pose proof (alloc_page_ok st Hinv) as Hpage. cbn [snd].
  destruct E as [Hnull|st' evs _ _ Hrw Hrx Hpg Hi Hp Hm Hf _ _
                |f rw rx k1 k2 N _ _ Hfresh Hfit1 P1 M1 Hfit2 P2 M2 F2 _].
  - eapply inv_same_resources; [..|exact Hinv]; try reflexivity.
    jit_fields. apply inv_page, Hinv.
  - eapply inv_same_resources; [..|exact Hinv]; try eassumption.
    intros _. congruence.
  -
    assert (Hk1 : os_ok k1) by (eapply os_ok_insert; [apply inv_os, Hinv|..]; eassumption).
    assert (Hk2 : os_ok k2) by (eapply os_ok_insert; [exact Hk1|..]; try eassumption; congruence).
    assert (Hrw_free : os_maps (os_state st) !! rw = None)
      by (eapply mmap_fits_unmapped; [apply inv_os, Hinv|eassumption]).
    assert (Hrx_free1 : os_maps k1 !! rx = None)
      by (eapply mmap_fits_unmapped; eassumption).
    assert (Hne : rx <> rw).
    { intros ->. rewrite M1, lookup_insert_eq in Hrx_free1. discriminate. }
    assert (Hrx_free : os_maps (os_state st) !! rx = None).
    { rewrite M1, lookup_insert_ne in Hrx_free1 by congruence. exact Hrx_free1. }
    assert (Hold : forall b l, os_maps (os_state st) !! b = Some l ->
                               os_maps k2 !! b = Some l).
    { intros b l Hb. rewrite M2, M1, !lookup_insert_ne by congruence.
      exact Hb. }
    assert (Hkey : forall k a,
               smap_find k (g_jit_allocations_by_rw st) = Some a ->
               k <> rw /\ rw_ptr a <> rw /\ rx_ptr a <> rx /\
               rx_ptr a <> rw /\ rw_ptr a <> rx /\ fd a <> f).
    { intros k a Hk.
      destruct (inv_rw _ Hinv _ _ Hk) as (Hka & Hmrw & Hmrx & _ & Hfd & _).
      destruct Hfresh as [_ Hfresh].
      repeat split; try congruence. }
    split; jit_fields.
    + exact Hk2.
    + intros _. congruence.
    + apply smap_sorted_assign, inv_sorted, Hinv.
    + intros k a. rewrite smap_find_assign.
      destruct (rw =? k) eqn:Hk; [apply Z.eqb_eq in Hk|apply Z.eqb_neq in Hk].
      * intros [= <-]. subst k. unfold record_ok. jit_fields. cbn [rw_ptr rx_ptr size fd].
        rewrite smap_find_assign, Z.eqb_refl, F2, M2, M1.
        rewrite lookup_insert_ne, !lookup_insert_eq by congruence.
        destruct Hfresh as [? _].
        repeat split; try reflexivity; try lia.
        apply elem_of_union_l, elem_of_singleton. reflexivity.
      * intros Ha. destruct (Hkey _ _ Ha) as (_ & ? & ? & ? & ? & _).
        destruct (inv_rw _ Hinv _ _ Ha) as (Hka & Hmrw & Hmrx & Hfd0 & Hfd & Hx).
        unfold record_ok. jit_fields.
        rewrite smap_find_assign, F2.
        replace (rx =? rx_ptr a) with false
          by (symmetry; apply Z.eqb_neq; congruence).
        repeat split; auto.
        apply elem_of_union_r, Hfd.
    + intros x k. rewrite smap_find_assign.
      destruct (rx =? x) eqn:Hx; [apply Z.eqb_eq in Hx|apply Z.eqb_neq in Hx].
      * intros [= <-]. subst x. eexists.
        rewrite smap_find_assign, Z.eqb_refl. split; reflexivity.
      * intros Hxk. destruct (inv_rx _ Hinv _ _ Hxk) as (a & Ha & Hax).
        exists a. rewrite smap_find_assign.
        destruct (Hkey _ _ Ha) as (? & _).
        replace (rw =? k) with false
          by (symmetry; apply Z.eqb_neq; congruence).
        split; assumption.
    + intros k a k' a'. rewrite !smap_find_assign.
      destruct (rw =? k) eqn:Hk; destruct (rw =? k') eqn:Hk'.
      * intros [= <-] [= <-]. cbn [rw_ptr rx_ptr]. exact Hne.
      * intros [= <-] Ha'. cbn [rx_ptr].
        destruct (Hkey _ _ Ha') as (_ & _ & _ & _ & ? & _). congruence.
      * intros Ha [= <-]. cbn [rw_ptr].
        destruct (Hkey _ _ Ha) as (_ & _ & _ & ? & _). assumption.
      * intros Ha Ha'. eapply inv_cross; eassumption.
    + intros k a k' a'. rewrite !smap_find_assign.
      destruct (rw =? k) eqn:Hk; destruct (rw =? k') eqn:Hk'.
      * apply Z.eqb_eq in Hk, Hk'. congruence.
      * intros [= <-] Ha'. cbn [fd].
        destruct (Hkey _ _ Ha') as (_ & _ & _ & _ & _ & ?). congruence.
      * intros Ha [= <-]. cbn [fd].
        destruct (Hkey _ _ Ha) as (_ & _ & _ & _ & _ & ?). congruence.
      * intros Ha Ha'. eapply inv_fd; eassumption.
Qed.

Lemma inv_free rw_arg rx_arg sz st :
  inv st -> inv (android_jit_free rw_arg rx_arg sz st).
Proof.
  intros Hinv. unfold android_jit_free.
  destruct ((rw_arg =? nullptr) && (rx_arg =? nullptr)); [exact Hinv|].
  destruct (smap_find rw_arg (g_jit_allocations_by_rw st)) as [a|] eqn:Ha;
    [|exact Hinv].
  destruct (release_registered st _ _ Hinv Ha) as (P & M & F & _).
  destruct (inv_rw _ Hinv _ _ Ha) as (Hka & _ & _ & _ & _ & Hxa).
  assert (Hother : forall k b,
             smap_find k (smap_erase rw_arg (g_jit_allocations_by_rw st)) = Some b ->
             k <> rw_arg /\ smap_find k (g_jit_allocations_by_rw st) = Some b).
  { intros k b. rewrite smap_find_erase.
    destruct (rw_arg =? k) eqn:Hk; [discriminate|].
    apply Z.eqb_neq in Hk. intros Hb. split; [congruence|exact Hb]. }
  split; jit_fields.
  - apply os_ok_release, inv_os, Hinv.
  - rewrite P. apply inv_page, Hinv.
  - apply smap_sorted_erase, inv_sorted, Hinv.
  - intros k b Hb. apply Hother in Hb as [Hk Hb].
    destruct (inv_rw _ Hinv _ _ Hb) as (Hkb & Hmrw & Hmrx & Hfd0 & Hfd & Hxb).
    assert (Hrx : rx_ptr a <> rx_ptr b) by (intros Heq; rewrite Heq in Hxa; congruence).
    pose proof (inv_cross _ Hinv _ _ _ _ Ha Hb).
    pose proof (inv_cross _ Hinv _ _ _ _ Hb Ha).
    unfold record_ok. jit_fields. rewrite M, F, smap_find_erase.
    rewrite !lookup_delete_ne by congruence.
    replace (rx_ptr a =? rx_ptr b) with false
      by (symmetry; apply Z.eqb_neq; assumption).
    repeat split; auto.
    apply elem_of_difference. split; [exact Hfd|].
    rewrite elem_of_singleton. intros Heq.
    apply Hk. eapply inv_fd; eassumption.
  - intros x k. rewrite smap_find_erase.
    destruct (rx_ptr a =? x) eqn:Hx; [discriminate|].
    apply Z.eqb_neq in Hx. intros Hxk.
    destruct (inv_rx _ Hinv _ _ Hxk) as (b & Hb & Hbx).
    exists b. split; [|exact Hbx]. rewrite smap_find_erase.
    destruct (rw_arg =? k) eqn:Hk; [|exact Hb].
    apply Z.eqb_eq in Hk. subst k. congruence.
  - intros k b k' b' Hb Hb'. apply Hother in Hb as [_ Hb].
    apply Hother in Hb' as [_ Hb']. eapply inv_cross; eassumption.
  - intros k b k' b' Hb Hb'. apply Hother in Hb as [_ Hb].
    apply Hother in Hb' as [_ Hb']. eapply inv_fd; eassumption.
Qed.

Lemma inv_exec c st : inv st -> inv (exec c st).
Proof.
  destruct c; simpl.
  - apply inv_init.
  - apply inv_shutdown.
  - apply inv_alloc.
  - apply inv_free.
  - apply inv_page_size.
Qed.

Lemma reachable_inv st : reachable st -> inv st.
Proof.
  induction 1 as [k Hk|c st _ IH].
  - apply inv_boot, Hk.
  - apply inv_exec, IH.
Qed.

End Invariant.

(** ** Address translation *)
Section Translation.

Implicit Types (st : jit_state) (a b : JitAllocation) (p : Z).

(** Both views of a record lie inside the address space. *)
Lemma record_bounds st k a :
  inv st -> smap_find k (g_jit_allocations_by_rw st) = Some a ->
  0 < size a /\
  0 < rw_ptr a /\ rw_ptr a + size a < SIZE_MOD /\
  0 < rx_ptr a /\ rx_ptr a + size a < SIZE_MOD.
Proof.
  intros Hinv Ha.
  destruct (inv_rw _ Hinv _ _ Ha) as (_ & Hmrw & Hmrx & _).
  destruct (inv_os _ Hinv) as (_ & Hb & _).
  pose proof (Hb _ _ Hmrw). pose proof (Hb _ _ Hmrx). simpl in *. lia.
Qed.

(** An address lies in the writable range of at most one record. *)
Lemma rw_range_unique st k a k' b p :
  inv st ->
  smap_find k (g_jit_allocations_by_rw st) = Some a ->
  smap_find k' (g_jit_allocations_by_rw st) = Some b ->
  rw_ptr a <= p < rw_ptr a + size a ->
  rw_ptr b <= p < rw_ptr b + size b ->
  a = b.
Proof.
  intros Hinv Ha Hb Hpa Hpb.
  destruct (inv_rw _ Hinv _ _ Ha) as (Hka & Hma & _).
  destruct (inv_rw _ Hinv _ _ Hb) as (Hkb & Hmb & _).
  destruct (inv_os _ Hinv) as (_ & _ & Hd).
  destruct (Z.eq_dec (rw_ptr a) (rw_ptr b)) as [Heq|Hne].
  - congruence.
  - specialize (Hd _ _ _ _ Hma Hmb Hne). lia.
Qed.

(** An address lies in the executable range of at most one record. *)
Lemma rx_range_unique st k a k' b p :
  inv st ->
  smap_find k (g_jit_allocations_by_rw st) = Some a ->
  smap_find k' (g_jit_allocations_by_rw st) = Some b ->
  rx_ptr a <= p < rx_ptr a + size a ->
  rx_ptr b <= p < rx_ptr b + size b ->
  a = b.
Proof.
  intros Hinv Ha Hb Hpa Hpb.
  destruct (inv_rw _ Hinv _ _ Ha) as (_ & _ & Hma & _ & _ & Hxa).
  destruct (inv_rw _ Hinv _ _ Hb) as (_ & _ & Hmb & _ & _ & Hxb).
  destruct (inv_os _ Hinv) as (_ & _ & Hd).
  destruct (Z.eq_dec (rx_ptr a) (rx_ptr b)) as [Heq|Hne].
  - rewrite Heq in Hxa. congruence.
  - specialize (Hd _ _ _ _ Hma Hmb Hne). lia.
Qed.

Lemma scan_rw_miss p (m : list (Z * JitAllocation)) :
  (forall k b, In (k, b) m ->
     0 <= rw_ptr b + size b < SIZE_MOD /\
     ~ (rw_ptr b <= p < rw_ptr b + size b)) ->
  0 <= p ->
  scan_rw p m = nullptr.
Proof.
  intros Hm Hp. induction m as [|[k0 b0] m IH]; simpl; [reflexivity|].
  destruct (Hm k0 b0 (or_introl eq_refl)) as [Hlim Hout].
  rewrite IH by (intros k b Hin; apply (Hm k b); right; exact Hin).
  destruct (rw_ptr b0 <=? p) eqn:Hle; [|reflexivity].
  apply Z.leb_le in Hle.
  rewrite (to_size_t_small (rw_ptr b0 + size b0)) by lia.
  replace (p <? rw_ptr b0 + size b0) with false
    by (symmetry; apply Z.ltb_ge; lia).
  reflexivity.
Qed.

Lemma scan_rw_hit p k a (m : list (Z * JitAllocation)) :
  In (k, a) m ->
  rw_ptr a <= p < rw_ptr a + size a ->
  (forall k' b, In (k', b) m ->
     0 < size b /\ 0 < rw_ptr b /\ rw_ptr b + size b < SIZE_MOD /\
     (rw_ptr b <= p < rw_ptr b + size b -> b = a)) ->
  scan_rw p m = to_size_t (rx_ptr a + (p - rw_ptr a)).
Proof.
  intros Hin Hpa Hm. induction m as [|[k0 b0] m IH]; simpl; [contradiction|].
  destruct (Hm k0 b0 (or_introl eq_refl)) as (Hsz & Hpos & Hlim & Huniq).
  rewrite (to_size_t_small (rw_ptr b0 + size b0)) by lia.
  destruct ((rw_ptr b0 <=? p) && (p <? rw_ptr b0 + size b0)) eqn:Hc.
  - apply andb_true_iff in Hc as [H1 H2].
    apply Z.leb_le in H1. apply Z.ltb_lt in H2.
    rewrite (Huniq (conj H1 H2)). reflexivity.
  - destruct Hin as [[= -> ->]|Hin].
    + exfalso. apply andb_false_iff in Hc as [Hc|Hc];
        [apply Z.leb_gt in Hc|apply Z.ltb_ge in Hc]; lia.
    + apply IH; [exact Hin|].
      intros k' b Hb. apply (Hm k' b). right. exact Hb.
Qed.

Lemma scan_rx_miss p (m : list (Z * JitAllocation)) :
  (forall k b, In (k, b) m ->
     0 <= rx_ptr b + size b < SIZE_MOD /\
     ~ (rx_ptr b <= p < rx_ptr b + size b)) ->
  0 <= p ->
  scan_rx p m = nullptr.
Proof.
  intros Hm Hp. induction m as [|[k0 b0] m IH]; simpl; [reflexivity|].
  destruct (Hm k0 b0 (or_introl eq_refl)) as [Hlim Hout].
  rewrite IH by (intros k b Hin; apply (Hm k b); right; exact Hin).
  destruct (rx_ptr b0 <=? p) eqn:Hle; [|reflexivity].
  apply Z.leb_le in Hle.
  rewrite (to_size_t_small (rx_ptr b0 + size b0)) by lia.
  replace (p <? rx_ptr b0 + size b0) with false
    by (symmetry; apply Z.ltb_ge; lia).
  reflexivity.
Qed.

Lemma scan_rx_hit p k a (m : list (Z * JitAllocation)) :
  In (k, a) m ->
  rx_ptr a <= p < rx_ptr a + size a ->
  (forall k' b, In (k', b) m ->
     0 < size b /\ 0 < rx_ptr b /\ rx_ptr b + size b < SIZE_MOD /\
     (rx_ptr b <= p < rx_ptr b + size b -> b = a)) ->
  scan_rx p m = to_size_t (rw_ptr a + (p - rx_ptr a)).
Proof.
  intros Hin Hpa Hm. induction m as [|[k0 b0] m IH]; simpl; [contradiction|].
  destruct (Hm k0 b0 (or_introl eq_refl)) as (Hsz & Hpos & Hlim & Huniq).
  rewrite (to_size_t_small (rx_ptr b0 + size b0)) by lia.
  destruct ((rx_ptr b0 <=? p) && (p <? rx_ptr b0 + size b0)) eqn:Hc.
  - apply andb_true_iff in Hc as [H1 H2].
    apply Z.leb_le in H1. apply Z.ltb_lt in H2.
    rewrite (Huniq (conj H1 H2)). reflexivity.
  - destruct Hin as [[= -> ->]|Hin].
    + exfalso. apply andb_false_iff in Hc as [Hc|Hc];
        [apply Z.leb_gt in Hc|apply Z.ltb_ge in Hc]; lia.
    + apply IH; [exact Hin|].
      intros k' b Hb. apply (Hm k' b). right. exact Hb.
Qed.

(** Every node the scans visit is a record of the registry. *)
Lemma visited_is_record st k b :
  inv st -> In (k, b) (g_jit_allocations_by_rw st) ->
  smap_find k (g_jit_allocations_by_rw st) = Some b.
Proof. intros Hinv. apply smap_In_find, inv_sorted, Hinv. Qed.

Lemma rw_to_rx_inside st a off :
  inv st -> open st a -> 0 <= off < size a ->
  android_jit_rw_to_rx (rw_ptr a + off) st = rx_ptr a + off.
Proof.
  intros Hinv Ha Hoff. unfold open in Ha.
  destruct (record_bounds _ _ _ Hinv Ha) as (Hsz & Hrw & Hrwl & Hrx & Hrxl).
  unfold android_jit_rw_to_rx, nullptr.
  replace (rw_ptr a + off =? 0) with false
    by (symmetry; apply Z.eqb_neq; lia).
  destruct (smap_find (rw_ptr a + off) (g_jit_allocations_by_rw st))
    as [b|] eqn:Hb.
  - destruct (inv_rw _ Hinv _ _ Hb) as (Hkb & _).
    destruct (record_bounds _ _ _ Hinv Hb) as (Hszb & _).
    assert (a = b) by (eapply (rw_range_unique st _ a _ b (rw_ptr a + off));
                       try eassumption; lia).
    subst b. lia.
  - rewrite (scan_rw_hit _ (rw_ptr a) a).
    + rewrite to_size_t_small by lia. lia.
    + apply smap_find_In, Ha.
    + lia.
    + intros k' b Hin. apply (visited_is_record _ _ _ Hinv) in Hin.
      destruct (record_bounds _ _ _ Hinv Hin) as (? & ? & ? & _).
      repeat split; try assumption.
      intros Hpb. symmetry.
      eapply (rw_range_unique st _ a _ b (rw_ptr a + off));
        try eassumption; lia.
Qed.

Lemma rx_to_rw_inside st a off :
  inv st -> open st a -> 0 <= off < size a ->
  android_jit_rx_to_rw (rx_ptr a + off) st = Some (rw_ptr a + off).
Proof.
  intros Hinv Ha Hoff. unfold open in Ha.
  destruct (record_bounds _ _ _ Hinv Ha) as (Hsz & Hrw & Hrwl & Hrx & Hrxl).
  unfold android_jit_rx_to_rw, nullptr.
  replace (rx_ptr a + off =? 0) with false
    by (symmetry; apply Z.eqb_neq; lia).
  destruct (smap_find (rx_ptr a + off) (g_jit_allocations_by_rx st))
    as [node|] eqn:Hnode.
  - destruct (inv_rx _ Hinv _ _ Hnode) as (b & Hb & Hbx).
    unfold deref. rewrite Hb. simpl.
    destruct (record_bounds _ _ _ Hinv Hb) as (Hszb & _).
    assert (a = b) by (eapply (rx_range_unique st _ a _ b (rx_ptr a + off));
                       try eassumption; lia).
    subst b. f_equal. lia.
  - rewrite (scan_rx_hit _ (rw_ptr a) a).
    + rewrite to_size_t_small by lia. f_equal. lia.
    + apply smap_find_In, Ha.
    + lia.
    + intros k' b Hin. apply (visited_is_record _ _ _ Hinv) in Hin.
      destruct (record_bounds _ _ _ Hinv Hin) as (? & _ & _ & ? & ?).
      repeat split; try assumption.
      intros Hpb. symmetry.
      eapply (rx_range_unique st _ a _ b (rx_ptr a + off));
        try eassumption; lia.
Qed.

Lemma rw_to_rx_outside st p :
  inv st -> 0 <= p ->
  (forall b, open st b -> ~ (rw_ptr b <= p < rw_ptr b + size b)) ->
  android_jit_rw_to_rx p st = nullptr.
Proof.
  intros Hinv Hp Hout. unfold android_jit_rw_to_rx.
  destruct (p =? nullptr); [reflexivity|].
  destruct (smap_find p (g_jit_allocations_by_rw st)) as [b|] eqn:Hb.
  - exfalso. destruct (inv_rw _ Hinv _ _ Hb) as (Hkb & _).
    destruct (record_bounds _ _ _ Hinv Hb) as (Hszb & _).
    apply (Hout b); [unfold open; congruence|lia].
  - apply scan_rw_miss; [|exact Hp].
    intros k b Hin. apply (visited_is_record _ _ _ Hinv) in Hin.
    destruct (inv_rw _ Hinv _ _ Hin) as (Hkb & _).
    destruct (record_bounds _ _ _ Hinv Hin) as (? & ? & ? & _).
    split; [lia|]. apply Hout. unfold open. congruence.
Qed.

Lemma rx_to_rw_outside st p :
  inv st -> 0 <= p ->
  (forall b, open st b -> ~ (rx_ptr b <= p < rx_ptr b + size b)) ->
  android_jit_rx_to_rw p st = Some nullptr.
Proof.
  intros Hinv Hp Hout. unfold android_jit_rx_to_rw.
  destruct (p =? nullptr); [reflexivity|].
  destruct (smap_find p (g_jit_allocations_by_rx st)) as [node|] eqn:Hnode.
  - exfalso. destruct (inv_rx _ Hinv _ _ Hnode) as (b & Hb & Hbx).
    destruct (inv_rw _ Hinv _ _ Hb) as (Hkb & _).
    destruct (record_bounds _ _ _ Hinv Hb) as (Hszb & _).
    apply (Hout b); [unfold open; congruence|lia].
  - f_equal. apply scan_rx_miss; [|exact Hp].
    intros k b Hin. apply (visited_is_record _ _ _ Hinv) in Hin.
    destruct (inv_rw _ Hinv _ _ Hin) as (Hkb & _).
    destruct (record_bounds _ _ _ Hinv Hin) as (? & _ & _ & ? & ?).
    split; [lia|]. apply Hout. unfold open. congruence.
Qed.

End Translation.

(** ** Facts shared by the theorems below *)
Section Shared.

Lemma lookups_same_registry st st' :
  g_jit_allocations_by_rw st' = g_jit_allocations_by_rw st ->
  g_jit_allocations_by_rx st' = g_jit_allocations_by_rx st ->
  forall p,
    android_jit_rw_to_rx p st' = android_jit_rw_to_rx p st /\
    android_jit_rx_to_rw p st' = android_jit_rx_to_rw p st.
Proof.
  intros Hrw Hrx p.
  unfold android_jit_rw_to_rx, android_jit_rx_to_rw, deref.
  rewrite Hrw, Hrx. split; reflexivity.
Qed.

(** What a successful allocation leaves behind. *)
Lemma alloc_success_facts st sz rws rxs o r st' :
  inv st -> 0 < sz < SIZE_MOD ->
  android_jit_alloc sz rws rxs o st = (r, st') -> ret r = 0 ->
  exists rw rx f N,
    r = {| ret := 0; out_rw := Some rw; out_rx := Some rx |} /\
    rw <> nullptr /\ rx <> nullptr /\ rw <> rx /\
    open st' {| rw_ptr := rw; rx_ptr := rx; size := N; fd := f |} /\
    smap_find rx (g_jit_allocations_by_rx st') = Some rw /\
    os_maps (os_state st') !! rw = Some N /\
    os_maps (os_state st') !! rx = Some N /\
    g_page_size st' = os_pagesize (os_state st) /\
    N = round_up_to_page (os_pagesize (os_state st)) sz /\
    N mod os_pagesize (os_state st) = 0 /\
    sz <= N < sz + os_pagesize (os_state st).
Proof.
  intros Hinv Hsz Hrun Hret.
  assert (Hinv' : inv st')
    by (replace st' with (snd (android_jit_alloc sz rws rxs o st))
          by (rewrite Hrun; reflexivity); apply inv_alloc, Hinv).
  pose proof (alloc_page_ok st Hinv) as Hpage.
  apply alloc_spec_holds in Hrun; [|apply inv_os, Hinv].
  destruct Hrun as [?|? ? ? ? ? ? ? ? ? ? ? ? ?
                   |f rw rx k1 k2 N _ _ Hfresh Hfit1 P1 M1 Hfit2 P2 M2 F2 _];
    try discriminate Hret.
  set (A := {| rw_ptr := rw; rx_ptr := rx; size := N; fd := f |}) in *.
  set (st' := {| g_jit_allocations_by_rw := _ |}) in *.
  assert (HA : open st' A).
  { unfold open, st'. cbn [rw_ptr A g_jit_allocations_by_rw].
    rewrite smap_find_assign, Z.eqb_refl. reflexivity. }
  destruct (inv_rw _ Hinv' _ _ HA) as (_ & Hmrw & Hmrx & _ & _ & Hx).
  destruct (record_bounds _ _ _ Hinv' HA) as (HN & Hrw & _ & Hrx & _).
  pose proof (inv_cross _ Hinv' _ _ _ _ HA HA) as Hne.
  cbn [rw_ptr rx_ptr size A] in *.
  destruct (inv_os _ Hinv) as ((n & Hn & Hp) & _).
  assert (HNeq : N = round_up_to_page (os_pagesize (os_state st)) sz)
    by (unfold N; rewrite Hpage; reflexivity).
  destruct (round_up_to_page_pow2 n sz Hn ltac:(lia))
    as (_ & Hmod & Hbound & _).
  rewrite <- Hp, <- HNeq in Hmod, Hbound.
  exists rw, rx, f, N. unfold nullptr.
  repeat split; try assumption; try lia; try congruence.
Qed.

Lemma shrinks_refl k : shrinks k k.
Proof. split; auto. Qed.

Lemma shrinks_trans k1 k2 k3 : shrinks k1 k2 -> shrinks k2 k3 -> shrinks k1 k3.
Proof.
  intros [M1 F1] [M2 F2]. split; [|auto].
  intros b. destruct (M1 b) as [H|H]; [left; exact H|].
  rewrite H. apply M2.
Qed.

Lemma shrinks_munmap addr len k : shrinks (sys_munmap addr len k) k.
Proof.
  destruct (sys_munmap_spec addr len k) as (_ & F & _ & [[_ M]|[_ M]]);
    split; rewrite ?F, ?M; auto.
  intros b. destruct (decide (addr = b)) as [<-|Hne].
  - left. apply lookup_delete_eq.
  - right. apply lookup_delete_ne, Hne.
Qed.

Lemma shrinks_close f k : shrinks (sys_close f k) k.
Proof.
  destruct (sys_close_spec f k) as (_ & M & F & _).
  split; rewrite ?F, ?M; auto.
  intros x Hx. apply elem_of_difference in Hx as [Hx _]. exact Hx.
Qed.

Lemma shrinks_release a k : shrinks (release a k) k.
Proof.
  unfold release.
  assert (H1 : shrinks (if rw_ptr a =? nullptr then k
                        else sys_munmap (rw_ptr a) (size a) k) k)
    by (destruct (rw_ptr a =? nullptr);
        [apply shrinks_refl|apply shrinks_munmap]).
  revert H1. generalize (if rw_ptr a =? nullptr then k
                         else sys_munmap (rw_ptr a) (size a) k).
  intros k1 H1.
  assert (H2 : shrinks (if rx_ptr a =? nullptr then k1
                        else sys_munmap (rx_ptr a) (size a) k1) k)
    by (destruct (rx_ptr a =? nullptr);
        [exact H1|eapply shrinks_trans; [apply shrinks_munmap|exact H1]]).
  revert H2. generalize (if rx_ptr a =? nullptr then k1
                         else sys_munmap (rx_ptr a) (size a) k1).
  intros k2 H2.
  destruct (0 <=? fd a); [|exact H2].
  eapply shrinks_trans; [apply shrinks_close|exact H2].
Qed.

Lemma shrinks_release_all (m : list (Z * JitAllocation)) k :
  shrinks (fold_left (fun k kv => release (snd kv) k) m k) k.
Proof.
  revert k. induction m as [|[k0 a0] m IH]; intros k; simpl.
  - apply shrinks_refl.
  - eapply shrinks_trans; [apply IH|apply shrinks_release].
Qed.

(** A record whose views are mapped with its size, or already gone, is
    fully released by [release]. *)
Lemma release_own a k :
  rw_ptr a <> 0 -> rx_ptr a <> 0 -> 0 <= fd a ->
  (os_maps k !! rw_ptr a = None \/ os_maps k !! rw_ptr a = Some (size a)) ->
  (os_maps k !! rx_ptr a = None \/ os_maps k !! rx_ptr a = Some (size a)) ->
  os_maps (release a k) !! rw_ptr a = None /\
  os_maps (release a k) !! rx_ptr a = None /\
  fd a ∉ os_fds (release a k).
Proof.
  intros Hrw Hrx Hfd Hmrw Hmrx. unfold release, nullptr.
  replace (rw_ptr a =? 0) with false by (symmetry; apply Z.eqb_neq; lia).
  replace (rx_ptr a =? 0) with false by (symmetry; apply Z.eqb_neq; lia).
  replace (0 <=? fd a) with true by (symmetry; apply Z.leb_le; lia).
  set (k1 := sys_munmap (rw_ptr a) (size a) k).
  set (k2 := sys_munmap (rx_ptr a) (size a) k1).
  assert (G1 : os_maps k1 !! rw_ptr a = None).
  { destruct (sys_munmap_spec (rw_ptr a) (size a) k)
      as (_ & _ & _ & [[_ M]|[Hno M]]); fold k1 in M; rewrite M.
    - apply lookup_delete_eq.
    - destruct Hmrw as [H|H]; [exact H|contradiction]. }
  assert (S1 : shrinks k1 k) by apply shrinks_munmap.
  assert (G2 : os_maps k2 !! rx_ptr a = None).
  { destruct (sys_munmap_spec (rx_ptr a) (size a) k1)
      as (_ & _ & _ & [[_ M]|[Hno M]]); fold k2 in M; rewrite M.
    - apply lookup_delete_eq.
    - destruct (proj1 S1 (rx_ptr a)) as [H|H]; [exact H|].
      rewrite H in Hno |- *.
      destruct Hmrx as [H'|H']; [exact H'|contradiction]. }
  assert (S2 : shrinks k2 k1) by apply shrinks_munmap.
  destruct (sys_close_spec (fd a) k2) as (_ & M3 & F3 & _).
  rewrite M3, F3. repeat split.
  - destruct (proj1 S2 (rw_ptr a)) as [H|H]; congruence.
  - exact G2.
  - intros Hin. apply elem_of_difference in Hin as [_ Hin].
    apply Hin, elem_of_singleton. reflexivity.
Qed.

Lemma shutdown_releases_all (m : list (Z * JitAllocation)) k :
  (forall k0 a, In (k0, a) m ->
     rw_ptr a <> 0 /\ rx_ptr a <> 0 /\ 0 <= fd a /\
     (os_maps k !! rw_ptr a = None \/ os_maps k !! rw_ptr a = Some (size a)) /\
     (os_maps k !! rx_ptr a = None \/ os_maps k !! rx_ptr a = Some (size a))) ->
  let k' := fold_left (fun k kv => release (snd kv) k) m k in
  forall k0 a, In (k0, a) m ->
    os_maps k' !! rw_ptr a = None /\ os_maps k' !! rx_ptr a = None /\
    fd a ∉ os_fds k'.
Proof.
  revert k. induction m as [|[k1 a1] m IH]; intros k Hm; simpl;
    [intros ? ? []|].
  intros k0 a [[= -> ->]|Hin].
  - destruct (Hm k0 a (or_introl eq_refl)) as (Hrw & Hrx & Hfd & Hmrw & Hmrx).
    destruct (release_own a k Hrw Hrx Hfd Hmrw Hmrx) as (G1 & G2 & G3).
    destruct (shrinks_release_all m (release a k)) as [SM SF].
    repeat split.
    + destruct (SM (rw_ptr a)); congruence.
    + destruct (SM (rx_ptr a)); congruence.
    + intros Hx. apply G3, SF, Hx.
  - refine (IH (release a1 k) _ k0 a Hin).
    intros k' b Hb.
    destruct (Hm k' b (or_intror Hb)) as (Hrw & Hrx & Hfd & Hmrw & Hmrx).
    destruct (shrinks_release a1 k) as [SM _].
    repeat split; try assumption.
    + destruct (SM (rw_ptr b)) as [H|H]; [left; exact H|rewrite H; exact Hmrw].
    + destruct (SM (rx_ptr b)) as [H|H]; [left; exact H|rewrite H; exact Hmrx].
Qed.

Lemma free_registered st a rx_arg sz :
  inv st -> open st a ->
  android_jit_free (rw_ptr a) rx_arg sz st =
  {| g_jit_allocations_by_rw :=
       smap_erase (rw_ptr a) (g_jit_allocations_by_rw st);
     g_jit_allocations_by_rx :=
       smap_erase (rx_ptr a) (g_jit_allocations_by_rx st);
     g_page_size := g_page_size st;
     g_initialized := g_initialized st;
     os_state := release a (os_state st) |}.
Proof.
  intros Hinv Ha. unfold open in Ha.
  destruct (record_bounds _ _ _ Hinv Ha) as (_ & Hrw & _).
  unfold android_jit_free, nullptr.
  replace (rw_ptr a =? 0) with false by (symmetry; apply Z.eqb_neq; lia).
  rewrite Ha. reflexivity.
Qed.

(** After [free], no record covers an address of the freed views. *)
Lemma freed_ranges_uncovered st a rx_arg sz b :
  inv st -> open st a ->
  open (android_jit_free (rw_ptr a) rx_arg sz st) b ->
  open st b /\ b <> a.
Proof.
  intros Hinv Ha Hb. rewrite free_registered in Hb by assumption.
  unfold open in Hb. cbn [g_jit_allocations_by_rw] in Hb.
  rewrite smap_find_erase in Hb.
  destruct (rw_ptr a =? rw_ptr b) eqn:Heq; [discriminate|].
  apply Z.eqb_neq in Heq. split; [exact Hb|congruence].
Qed.

End Shared.

(** ** The concrete runs are runs *)
Section ScenarioFacts.
Import Scenario.

Lemma os0_ok : os_ok os0.
Proof.
  split; [exists 12; split; [lia|reflexivity]|split].
  - apply map_Forall_empty.
  - intros b1 l1 b2 l2 H. cbn [os0 os_maps] in H.
    rewrite lookup_empty in H. discriminate.
Qed.

Lemma st_one_reachable : reachable st_one.
Proof.
  apply (reach_call (Call_alloc 100 true true (grants 3 (page 1) (page 2)))).
  apply reach_boot, os0_ok.
Qed.

Lemma st_one_open : open st_one alloc_one.
Proof. vm_compute. reflexivity. Qed.

Lemma st_one_registry :
  g_jit_allocations_by_rw st_one = [(page 1, alloc_one)].
Proof. vm_compute. reflexivity. Qed.

Lemma st_adjacent_reachable : reachable st_adjacent.
Proof.
  unfold st_adjacent, calls_adjacent. cbn [fold_left].
  repeat apply reach_call. apply reach_boot, os0_ok.
Qed.

Lemma st_adjacent_open : open st_adjacent alloc_B.
Proof. vm_compute. reflexivity. Qed.

End ScenarioFacts.

(** ** Where the records of a later state come from *)
Section Provenance.

Lemma release_trace_grows a k :
  exists evs, os_trace (release a k) = os_trace k ++ evs.
Proof.
  unfold release.
  assert (Hm : forall addr len k0,
             os_trace (sys_munmap addr len k0) =
               os_trace k0 ++ [Sys_munmap addr len])
    by (intros; apply sys_munmap_spec).
  assert (H1 : exists evs,
             os_trace (if rw_ptr a =? nullptr then k
                       else sys_munmap (rw_ptr a) (size a) k) =
               os_trace k ++ evs).
  { destruct (rw_ptr a =? nullptr);
      [exists []; rewrite app_nil_r; reflexivity|eexists; apply Hm]. }
  revert H1. generalize (if rw_ptr a =? nullptr then k
                         else sys_munmap (rw_ptr a) (size a) k).
  intros k1 [e1 H1].
  assert (H2 : exists evs,
             os_trace (if rx_ptr a =? nullptr then k1
                       else sys_munmap (rx_ptr a) (size a) k1) =
               os_trace k ++ evs).
  { destruct (rx_ptr a =? nullptr); [exists e1; exact H1|].
    exists (e1 ++ [Sys_munmap (rx_ptr a) (size a)]).
    rewrite Hm, H1, <- app_assoc. reflexivity. }
  revert H2. generalize (if rx_ptr a =? nullptr then k1
                         else sys_munmap (rx_ptr a) (size a) k1).
  intros k2 [e2 H2].
  destruct (0 <=? fd a); [|exists e2; exact H2].
  exists (e2 ++ [Sys_close (fd a)]).
  destruct (sys_close_spec (fd a) k2) as (_ & _ & _ & ->).
  rewrite H2, <- app_assoc. reflexivity.
Qed.

Lemma release_all_trace_grows (m : list (Z * JitAllocation)) k :
  exists evs,
    os_trace (fold_left (fun k kv => release (snd kv) k) m k) =
      os_trace k ++ evs.
Proof.
  revert k. induction m as [|[k0 a0] m IH]; intros k; simpl.
  - exists []. rewrite app_nil_r. reflexivity.
  - destruct (IH (release a0 k)) as [e2 H2].
    destruct (release_trace_grows a0 k) as [e1 H1].
    exists (e1 ++ e2). rewrite H2, H1, <- app_assoc. reflexivity.
Qed.

(** One call only appends to the trace, and a record that is open after
    it either was open before or had its two views mapped by the call. *)
Lemma step_provenance c st :
  inv st ->
  exists evs,
    os_trace (os_state (exec c st)) = os_trace (os_state st) ++ evs /\
    forall b, open (exec c st) b ->
      open st b \/
      (In (Sys_mmap (size b) PROT_READ_WRITE (fd b) (rw_ptr b)) evs /\
       In (Sys_mmap (size b) PROT_READ_EXEC (fd b) (rx_ptr b)) evs).
Proof.
  intros Hinv. destruct c as [| |sz rws rxs o|rw_arg rx_arg sz|]; cbn [exec].
  - exists []. rewrite app_nil_r. unfold android_jit_init.
    destruct (g_initialized st); cbn [snd]; split; auto.
  - destruct (release_all_trace_grows (g_jit_allocations_by_rw st)
                (os_state st)) as [evs Hevs].
    exists evs. split; [exact Hevs|].
    intros b Hb. unfold open in Hb. discriminate Hb.
  - destruct (android_jit_alloc sz rws rxs o st) as [r st'] eqn:E.
    apply alloc_spec_holds in E; [|apply inv_os, Hinv]. cbn [snd].
    destruct E as [Hnull|st' evs _ _ Hrw _ _ _ _ _ _ Ht _
                  |f rw rx k1 k2 N _ _ _ _ _ _ _ _ _ _ Ht].
    + exists []. rewrite app_nil_r. split; [reflexivity|]. auto.
    + exists evs. split; [exact Ht|].
      intros b Hb. left. unfold open in *. rewrite <- Hrw. exact Hb.
    + eexists. split; [exact Ht|].
      intros b Hb. unfold open in *.
      cbn [g_jit_allocations_by_rw] in Hb. rewrite smap_find_assign in Hb.
      destruct (rw =? rw_ptr b); [right|left; exact Hb].
      injection Hb as <-. cbn [size fd rw_ptr rx_ptr In]. tauto.
  - unfold android_jit_free.
    destruct ((rw_arg =? nullptr) && (rx_arg =? nullptr));
      [exists []; rewrite app_nil_r; split; auto|].
    destruct (smap_find rw_arg (g_jit_allocations_by_rw st)) as [a|] eqn:Ha;
      [|exists []; rewrite app_nil_r; split; auto].
    destruct (release_trace_grows a (os_state st)) as [evs Hevs].
    exists evs. split; [exact Hevs|].
    intros b Hb. left. unfold open in *.
    cbn [g_jit_allocations_by_rw] in Hb. rewrite smap_find_erase in Hb.
    destruct (rw_arg =? rw_ptr b); [discriminate|exact Hb].
  - exists []. rewrite app_nil_r. unfold android_jit_page_size.
    destruct (g_page_size st =? 0); cbn [snd]; split; auto.
Qed.

Lemma run_reachable cs st : reachable st -> reachable (run cs st).
Proof.
  revert st. induction cs as [|c cs IH]; intros st Hst; simpl;
    [exact Hst|].
  apply IH, reach_call, Hst.
Qed.

Lemma run_provenance cs st :
  reachable st ->
  exists evs,
    os_trace (os_state (run cs st)) = os_trace (os_state st) ++ evs /\
    forall b, open (run cs st) b ->
      open st b \/
      (In (Sys_mmap (size b) PROT_READ_WRITE (fd b) (rw_ptr b)) evs /\
       In (Sys_mmap (size b) PROT_READ_EXEC (fd b) (rx_ptr b)) evs).
Proof.
  revert st. induction cs as [|c cs IH]; intros st Hst; simpl.
  - exists []. rewrite app_nil_r. split; auto.
  - destruct (step_provenance c st (reachable_inv _ Hst)) as (e1 & T1 & P1).
    destruct (IH (exec c st) (reach_call c st Hst)) as (e2 & T2 & P2).
    exists (e1 ++ e2). split; [rewrite T2, T1, <- app_assoc; reflexivity|].
    intros b Hb. destruct (P2 b Hb) as [Hmid|[Hw Hx]].
    + destruct (P1 b Hmid) as [Hold|[Hw Hx]]; [left; exact Hold|right].
      split; apply in_or_app; left; assumption.
    + right. split; apply in_or_app; right; assumption.
Qed.

Lemma mapped_over_In p evs len prot f res :
  In (Sys_mmap len prot f res) evs ->
  res <> MAP_FAILED -> res <= p < res + len ->
  mapped_over p evs = true.
Proof.
  intros Hin Hres Hp. unfold mapped_over. apply existsb_exists.
  exists (Sys_mmap len prot f res). split; [exact Hin|].
  apply andb_true_iff. split; [apply andb_true_iff; split|].
  - apply negb_true_iff, Z.eqb_neq, Hres.
  - apply Z.leb_le. lia.
  - apply Z.ltb_lt. lia.
Qed.

(** An address of one open allocation's views lies in no view of
    another. *)
Lemma views_exclusive st a b p :
  inv st -> open st a -> open st b ->
  rw_ptr a <= p < rw_ptr a + size a \/ rx_ptr a <= p < rx_ptr a + size a ->
  rw_ptr b <= p < rw_ptr b + size b \/ rx_ptr b <= p < rx_ptr b + size b ->
  a = b.
Proof.
  intros Hinv Ha Hb Hpa Hpb.
  destruct (inv_rw _ Hinv _ _ Ha) as (_ & Hma & Hmxa & _).
  destruct (inv_rw _ Hinv _ _ Hb) as (_ & Hmb & Hmxb & _).
  destruct (inv_os _ Hinv) as (_ & _ & Hd).
  destruct Hpa as [Hpa|Hpa]; destruct Hpb as [Hpb|Hpb].
  - eapply (rw_range_unique st _ a _ b p); eassumption.
  - exfalso. pose proof (inv_cross _ Hinv _ _ _ _ Hb Ha) as Hne.
    specialize (Hd _ _ _ _ Hmxb Hma Hne). lia.
  - exfalso. pose proof (inv_cross _ Hinv _ _ _ _ Ha Hb) as Hne.
    specialize (Hd _ _ _ _ Hmxa Hmb Hne). lia.
  - eapply (rx_range_unique st _ a _ b p); eassumption.
Qed.

End Provenance.

(** * The allocator against its specification *)
Section Claims.
Import Scenario.

(** C1.  For every size > 0, a call of [android_jit_alloc] that returns
    success stores two distinct non-null addresses in the output slots,
    the writable and the executable view; one record holds both, is
    reached from either index, and gives both views the same length: the
    size rounded up to the next multiple of the page size.  Both views
    are live mappings of that length. *)
Theorem alloc_success_two_views st sz rws rxs o r st' :
  reachable st -> 0 < sz < SIZE_MOD ->
  android_jit_alloc sz rws rxs o st = (r, st') -> ret r = 0 ->
  exists rw rx f N,
    out_rw r = Some rw /\ out_rx r = Some rx /\
    rw <> nullptr /\ rx <> nullptr /\ rw <> rx /\
    open st' {| rw_ptr := rw; rx_ptr := rx; size := N; fd := f |} /\
    smap_find rx (g_jit_allocations_by_rx st') = Some rw /\
    os_maps (os_state st') !! rw = Some N /\
    os_maps (os_state st') !! rx = Some N /\
    N = round_up_to_page (os_pagesize (os_state st)) sz /\
    N mod os_pagesize (os_state st) = 0 /\
    sz <= N < sz + os_pagesize (os_state st).
Proof.
  intros Hreach Hsz Hrun Hret.
  destruct (alloc_success_facts st sz rws rxs o r st'
              (reachable_inv _ Hreach) Hsz Hrun Hret)
    as (rw & rx & f & N & -> & H).
  exists rw, rx, f, N. cbn [out_rw out_rx]. tauto.
Qed.

Lemma alloc_success_two_views_witness :
  exists rw rx f N,
    out_rw (fst run_one) = Some rw /\ out_rx (fst run_one) = Some rx /\
    rw <> nullptr /\ rx <> nullptr /\ rw <> rx /\
    open st_one {| rw_ptr := rw; rx_ptr := rx; size := N; fd := f |} /\
    smap_find rx (g_jit_allocations_by_rx st_one) = Some rw /\
    os_maps (os_state st_one) !! rw = Some N /\
    os_maps (os_state st_one) !! rx = Some N /\
    N = round_up_to_page (os_pagesize (os_state (boot os0))) 100 /\
    N mod os_pagesize (os_state (boot os0)) = 0 /\
    100 <= N < 100 + os_pagesize (os_state (boot os0)).
Proof.
  apply (alloc_success_two_views (boot os0) 100 true true
           (grants 3 (page 1) (page 2)) (fst run_one) st_one).
  - apply reach_boot, os0_ok.
  - vm_compute. split; reflexivity.
  - reflexivity.
  - reflexivity.
Defined.

(** C2.  For every open allocation of recorded size N and every offset
    0 <= off < N, [android_jit_rw_to_rx] maps writable base + off to
    executable base + off, and [android_jit_rx_to_rw] maps executable
    base + off to writable base + off. *)
Theorem interior_translation st a off :
  reachable st -> open st a -> 0 <= off < size a ->
  android_jit_rw_to_rx (rw_ptr a + off) st = rx_ptr a + off /\
  android_jit_rx_to_rw (rx_ptr a + off) st = Some (rw_ptr a + off).
Proof.
  intros Hreach Ha Hoff. apply reachable_inv in Hreach. split.
  - apply rw_to_rx_inside; assumption.
  - apply rx_to_rw_inside; assumption.
Qed.

Lemma interior_translation_witness :
  android_jit_rw_to_rx (rw_ptr alloc_one + 4095) st_one =
    rx_ptr alloc_one + 4095 /\
  android_jit_rx_to_rw (rx_ptr alloc_one + 4095) st_one =
    Some (rw_ptr alloc_one + 4095).
Proof.
  apply (interior_translation st_one alloc_one 4095).
  - exact st_one_reachable.
  - vm_compute. reflexivity.
  - vm_compute. split; [discriminate|reflexivity].
Defined.

(** C3.  On the base and interior addresses of an open allocation the two
    translations are mutually inverse: an executable address x is taken
    to a writable address that [android_jit_rw_to_rx] takes back to x,
    and a writable address y is taken to an executable address that
    [android_jit_rx_to_rw] takes back to y. *)
Theorem translations_inverse st a off :
  reachable st -> open st a -> 0 <= off < size a ->
  (exists y, android_jit_rx_to_rw (rx_ptr a + off) st = Some y /\
             android_jit_rw_to_rx y st = rx_ptr a + off) /\
  android_jit_rx_to_rw (android_jit_rw_to_rx (rw_ptr a + off) st) st =
    Some (rw_ptr a + off).
Proof.
  intros Hreach Ha Hoff. apply reachable_inv in Hreach.
  pose proof (rw_to_rx_inside st a off Hreach Ha Hoff) as Hwx.
  pose proof (rx_to_rw_inside st a off Hreach Ha Hoff) as Hxw.
  split.
  - exists (rw_ptr a + off). split; assumption.
  - rewrite Hwx. exact Hxw.
Qed.

Lemma translations_inverse_witness :
  (exists y, android_jit_rx_to_rw (rx_ptr alloc_one + 17) st_one = Some y /\
             android_jit_rw_to_rx y st_one = rx_ptr alloc_one + 17) /\
  android_jit_rx_to_rw
    (android_jit_rw_to_rx (rw_ptr alloc_one + 17) st_one) st_one =
    Some (rw_ptr alloc_one + 17).
Proof.
  apply (translations_inverse st_one alloc_one 17).
  - exact st_one_reachable.
  - vm_compute. reflexivity.
  - vm_compute. split; [discriminate|reflexivity].
Defined.

(** C4, as stated, fails: with B's writable view directly below C's, the
    address one past the end of B is the writable base of C, and the
    lookup returns C's executable base instead of not-found. *)
Lemma past_the_end_counterexample :
  reachable st_adjacent /\ open st_adjacent alloc_B /\
  android_jit_rw_to_rx (rw_ptr alloc_B + size alloc_B) st_adjacent = page 6 /\
  android_jit_rw_to_rx (rw_ptr alloc_B + size alloc_B) st_adjacent <> nullptr.
Proof.
  split; [exact st_adjacent_reachable|].
  split; [exact st_adjacent_open|].
  vm_compute. split; [reflexivity|discriminate].
Qed.

(** C4, amended.  The containment bound is exclusive at the upper end:
    the address one past the end of an open allocation's writable range
    is never resolved against that allocation.  The lookup returns
    not-found unless the writable view of another open allocation begins
    at that address; it then returns that allocation's executable
    base. *)
Theorem past_the_end_not_found st a :
  reachable st -> open st a ->
  ((forall b, open st b -> rw_ptr b <> rw_ptr a + size a) ->
   android_jit_rw_to_rx (rw_ptr a + size a) st = nullptr) /\
  (forall b, open st b -> rw_ptr b = rw_ptr a + size a ->
   android_jit_rw_to_rx (rw_ptr a + size a) st = rx_ptr b).
Proof.
  intros Hreach Ha. apply reachable_inv in Hreach.
  pose proof (record_bounds _ _ _ Hreach Ha) as (Hsz & Hrw & Hlim & _).
  split.
  - intros Hnone. apply rw_to_rx_outside; [exact Hreach|lia|].
    intros b Hb Hin.
    pose proof (record_bounds _ _ _ Hreach Hb) as (Hszb & _).
    destruct (inv_rw _ Hreach _ _ Ha) as (_ & Hma & _).
    destruct (inv_rw _ Hreach _ _ Hb) as (_ & Hmb & _).
    destruct (inv_os _ Hreach) as (_ & _ & Hd).
    destruct (Z.eq_dec (rw_ptr a) (rw_ptr b)) as [Heq|Hne].
    + rewrite <- Heq in Hin.
      assert (a = b) by (unfold open in Ha, Hb; congruence). subst b. lia.
    + specialize (Hd _ _ _ _ Hma Hmb Hne).
      apply (Hnone b Hb). lia.
  - intros b Hb Hstart.
    pose proof (record_bounds _ _ _ Hreach Hb) as (Hszb & _).
    rewrite <- Hstart, <- (Z.add_0_r (rw_ptr b)) at 1.
    rewrite (rw_to_rx_inside st b 0 Hreach Hb) by lia. lia.
Qed.

Lemma past_the_end_not_found_witness :
  android_jit_rw_to_rx (rw_ptr alloc_one + size alloc_one) st_one = nullptr.
Proof.
  apply (past_the_end_not_found st_one alloc_one).
  - exact st_one_reachable.
  - vm_compute. reflexivity.
  - intros b Hb. unfold open in Hb. rewrite st_one_registry in Hb.
    cbn [smap_find] in Hb.
    destruct (page 1 =? rw_ptr b) eqn:Hk; [|discriminate].
    injection Hb as <-. vm_compute. discriminate.
Defined.

(** C5, as stated, fails: "every subsequent lookup" does not survive a
    later allocation that is handed the freed range.  A and B are open, A
    is freed, and the next allocation gets its writable view over A's old
    writable view; the lookup of an interior address of the freed A then
    resolves into the new allocation. *)
Lemma lookups_after_free_counterexample :
  reachable st_two /\ open st_two alloc_one /\
  0 <= 8 < size alloc_one /\
  let st1 := android_jit_free (rw_ptr alloc_one) (rx_ptr alloc_one) 100
               st_two in
  let st2 := exec (Call_alloc 8000 true true (grants 3 (page 2) (page 6)))
               st1 in
  android_jit_rw_to_rx (rw_ptr alloc_one + 8) st1 = nullptr /\
  android_jit_rw_to_rx (rw_ptr alloc_one + 8) st2 = page 6 + 4096 + 8 /\
  android_jit_rw_to_rx (rw_ptr alloc_one + 8) st2 <> nullptr.
Proof.
  split; [apply reach_call, st_one_reachable|].
  vm_compute. repeat split; try reflexivity; discriminate.
Qed.

(** C5, amended.  After [android_jit_free] on a registered allocation
    (whatever executable pointer and size the caller passed), both
    translation lookups return not-found on every base or interior
    address of either freed view, in the state [free] returns and after
    any further calls, for as long as no mapping call made since the
    [free] has succeeded with a range that holds the address. *)
Theorem lookups_after_free_until_remapped st a rx_arg sz off p cs evs :
  reachable st -> open st a -> 0 <= off < size a ->
  p = rw_ptr a + off \/ p = rx_ptr a + off ->
  let st1 := android_jit_free (rw_ptr a) rx_arg sz st in
  let st2 := run cs st1 in
  os_trace (os_state st2) = os_trace (os_state st1) ++ evs ->
  mapped_over p evs = false ->
  android_jit_rw_to_rx p st2 = nullptr /\
  android_jit_rx_to_rw p st2 = Some nullptr.
Proof.
  intros Hreach Ha Hoff Hp st1 st2 Htrace Hfree.
  pose proof (reachable_inv _ Hreach) as Hinv.
  assert (Hreach1 : reachable st1)
    by apply (reach_call (Call_free (rw_ptr a) rx_arg sz)), Hreach.
  pose proof (reachable_inv _ (run_reachable cs st1 Hreach1)) as Hinv2.
  fold st2 in Hinv2.
  destruct (run_provenance cs st1 Hreach1) as (evs' & Htrace' & Hprov).
  fold st2 in Htrace', Hprov.
  rewrite Htrace' in Htrace. apply app_inv_head in Htrace. subst evs'.
  destruct (record_bounds _ _ _ Hinv Ha) as (Hsz & Hrw & _ & Hrx & _).
  assert (Hin_a : rw_ptr a <= p < rw_ptr a + size a \/
                  rx_ptr a <= p < rx_ptr a + size a)
    by (destruct Hp as [-> | ->]; [left|right]; lia).
  assert (Hnone : forall b, open st2 b ->
             ~ (rw_ptr b <= p < rw_ptr b + size b \/
                rx_ptr b <= p < rx_ptr b + size b)).
  { intros b Hb Hin_b.
    destruct (record_bounds _ _ _ Hinv2 Hb) as (_ & _ & Hrwl & _ & Hrxl).
    destruct (Hprov b Hb) as [Hold|[Hw Hx]].
    - apply freed_ranges_uncovered in Hold as [Hold Hne]; try assumption.
      apply Hne. symmetry.
      eapply (views_exclusive st a b p); eassumption.
    - assert (Hcov : mapped_over p evs = true).
      { destruct Hin_b as [Hin_b|Hin_b].
        - apply (mapped_over_In p evs _ _ _ _ Hw); [unfold MAP_FAILED; lia|lia].
        - apply (mapped_over_In p evs _ _ _ _ Hx); [unfold MAP_FAILED; lia|lia]. }
      congruence. }
  assert (Hp0 : 0 <= p) by (destruct Hp as [-> | ->]; lia).
  split.
  - apply rw_to_rx_outside; [exact Hinv2|exact Hp0|].
    intros b Hb Hin. apply (Hnone b Hb). left. exact Hin.
  - apply rx_to_rw_outside; [exact Hinv2|exact Hp0|].
    intros b Hb Hin. apply (Hnone b Hb). right. exact Hin.
Qed.

Lemma lookups_after_free_until_remapped_witness :
  let st1 := android_jit_free (rw_ptr alloc_one) (rx_ptr alloc_one) 100
               st_one in
  let st2 := run calls_elsewhere st1 in
  android_jit_rw_to_rx (rw_ptr alloc_one + 8) st2 = nullptr /\
  android_jit_rx_to_rw (rw_ptr alloc_one + 8) st2 = Some nullptr.
Proof.
  apply (lookups_after_free_until_remapped st_one alloc_one
           (rx_ptr alloc_one) 100 8 (rw_ptr alloc_one + 8) calls_elsewhere
           [Sys_memfd_create 4; Sys_ftruncate 4 4096 0;
            Sys_mmap 4096 PROT_READ_WRITE 4 (page 3);
            Sys_mmap 4096 PROT_READ_EXEC 4 (page 4)]).
  - exact st_one_reachable.
  - exact st_one_open.
  - vm_compute. split; [discriminate|reflexivity].
  - left. reflexivity.
  - vm_compute. reflexivity.
  - vm_compute. reflexivity.
Defined.

(** C6.  When the read+execute mapping of an allocation fails, the
    read+write mapping had succeeded and the call goes on to unmap it and
    to close the descriptor before it returns -1.  The two indexes, the
    table of mappings and the set of open descriptors are then what they
    were before the call, and every translation lookup answers as
    before. *)
Theorem alloc_rx_failure_rolls_back st sz rws rxs o r st' evs len f :
  reachable st ->
  android_jit_alloc sz rws rxs o st = (r, st') ->
  os_trace (os_state st') = os_trace (os_state st) ++ evs ->
  In (Sys_mmap len PROT_READ_EXEC f MAP_FAILED) evs ->
  ret r = -1 /\ out_rw r = Some nullptr /\ out_rx r = Some nullptr /\
  (exists rw, rw <> MAP_FAILED /\
     evs = [Sys_memfd_create f; Sys_ftruncate f len 0;
            Sys_mmap len PROT_READ_WRITE f rw;
            Sys_mmap len PROT_READ_EXEC f MAP_FAILED;
            Sys_munmap rw len; Sys_close f]) /\
  g_jit_allocations_by_rw st' = g_jit_allocations_by_rw st /\
  g_jit_allocations_by_rx st' = g_jit_allocations_by_rx st /\
  os_maps (os_state st') = os_maps (os_state st) /\
  os_fds (os_state st') = os_fds (os_state st) /\
  (forall p, android_jit_rw_to_rx p st' = android_jit_rw_to_rx p st /\
             android_jit_rx_to_rw p st' = android_jit_rx_to_rw p st).
Proof.
  intros Hreach Hrun Htrace Hev. apply reachable_inv in Hreach.
  apply alloc_spec_holds in Hrun; [|apply inv_os, Hreach].
  destruct Hrun as [Hnull|st' evs' _ _ Hrw Hrx _ _ _ Hm Hf Ht Hfail
                   |f' rw rx k1 k2 N _ _ _ _ _ _ Hfit2 _ _ _ Ht].
  - exfalso. revert Htrace. unfold with_os. cbn [os_state].
    cbn [set_errno os_trace]. rewrite <- (app_nil_r (os_trace (os_state st))) at 1.
    intros Heq. apply app_inv_head in Heq. subst evs. destruct Hev.
  - rewrite Ht in Htrace. apply app_inv_head in Htrace. subst evs'.
    repeat split; try assumption; try reflexivity;
      try (apply lookups_same_registry; assumption).
    destruct Hfail as [|f0|f0|f0 rw0 HN Hrw0]; cbn [In] in Hev.
    + destruct Hev as [Hev|[]]. discriminate Hev.
    + destruct Hev as [Hev|[Hev|[Hev|[]]]]; discriminate Hev.
    + destruct Hev as [Hev|[Hev|[Hev|[Hev|[]]]]]; discriminate Hev.
    + destruct Hev as [Hev|[Hev|[Hev|[Hev|[Hev|[Hev|[]]]]]]];
        try discriminate Hev.
      injection Hev as <- <-. exists rw0. split; [assumption|reflexivity].
  - exfalso. cbn [os_state] in Htrace. rewrite Ht in Htrace.
    apply app_inv_head in Htrace. subst evs. cbn [In] in Hev.
    destruct Hfit2 as (HN & _ & _ & Hlim & _).
    destruct Hev as [Hev|[Hev|[Hev|[Hev|[]]]]]; try discriminate Hev.
    injection Hev as _ _ Hrx. unfold MAP_FAILED in Hrx. fold N in HN, Hlim. lia.
Qed.

Lemma alloc_rx_failure_rolls_back_witness :
  ret (fst run_rx_refused) = -1 /\
  out_rw (fst run_rx_refused) = Some nullptr /\
  out_rx (fst run_rx_refused) = Some nullptr /\
  (exists rw, rw <> MAP_FAILED /\
     [Sys_memfd_create 3; Sys_ftruncate 3 4096 0;
      Sys_mmap 4096 PROT_READ_WRITE 3 (page 1);
      Sys_mmap 4096 PROT_READ_EXEC 3 MAP_FAILED;
      Sys_munmap (page 1) 4096; Sys_close 3] =
     [Sys_memfd_create 3; Sys_ftruncate 3 4096 0;
      Sys_mmap 4096 PROT_READ_WRITE 3 rw;
      Sys_mmap 4096 PROT_READ_EXEC 3 MAP_FAILED;
      Sys_munmap rw 4096; Sys_close 3]) /\
  g_jit_allocations_by_rw (snd run_rx_refused) =
    g_jit_allocations_by_rw (boot os0) /\
  g_jit_allocations_by_rx (snd run_rx_refused) =
    g_jit_allocations_by_rx (boot os0) /\
  os_maps (os_state (snd run_rx_refused)) = os_maps (os_state (boot os0)) /\
  os_fds (os_state (snd run_rx_refused)) = os_fds (os_state (boot os0)) /\
  (forall p,
     android_jit_rw_to_rx p (snd run_rx_refused) =
       android_jit_rw_to_rx p (boot os0) /\
     android_jit_rx_to_rw p (snd run_rx_refused) =
       android_jit_rx_to_rw p (boot os0)).
Proof.
  apply (alloc_rx_failure_rolls_back (boot os0) 100 true true
           {| on_memfd_create := Grant 3; on_ftruncate := Grant 0;
              on_mmap_rw := Grant (page 1); on_mmap_rx := Refuse ENOMEM |}).
  - apply reach_boot, os0_ok.
  - reflexivity.
  - vm_compute. reflexivity.
  - vm_compute. right. right. right. left. reflexivity.
Defined.

(** C7, as stated, fails for a zero size: the request is not rejected
    up front.  The backing store is created (descriptor 3), sized to
    zero, and only the mapping call fails, after which the descriptor is
    closed; and when the backing store itself is refused the error is the
    kernel's ([EMFILE] here), not [EINVAL]. *)
Lemma zero_size_counterexample :
  (ret (fst run_zero) = -1 /\
   os_trace (os_state (snd run_zero)) =
     [Sys_memfd_create 3; Sys_ftruncate 3 0 0;
      Sys_mmap 0 PROT_READ_WRITE 3 MAP_FAILED; Sys_close 3] /\
   os_trace (os_state (snd run_zero)) <> os_trace (os_state (boot os0))) /\
  (ret (fst run_zero_refused) = -1 /\
   os_errno (os_state (snd run_zero_refused)) = EMFILE /\
   os_errno (os_state (snd run_zero_refused)) <> EINVAL).
Proof. vm_compute. repeat split; discriminate. Qed.

(** C7, amended.  With a null output slot, [android_jit_alloc] returns -1
    with [errno = EINVAL] before any system call: nothing is stored
    through the slots and the registry, the mappings and the descriptors
    are unchanged.  With both slots non-null and a zero size the call is
    not rejected up front: its first system call asks for a backing store.
    It then returns -1 with null in both slots and leaves the registry,
    the mappings and the descriptors as they were, in one of three ways:
    the backing store is refused (no other call is made, [errno] is the
    kernel's); the store is created but cannot be sized (it is closed
    again, [errno] is the kernel's); or the store is created and sized to
    zero, the mapping of length zero fails with [EINVAL], and the store is
    closed again. *)
Theorem alloc_invalid_argument st sz rws rxs o r st' :
  reachable st ->
  android_jit_alloc sz rws rxs o st = (r, st') ->
  (rws = false \/ rxs = false ->
     ret r = -1 /\ out_rw r = None /\ out_rx r = None /\
     os_errno (os_state st') = EINVAL /\
     os_trace (os_state st') = os_trace (os_state st) /\
     g_jit_allocations_by_rw st' = g_jit_allocations_by_rw st /\
     g_jit_allocations_by_rx st' = g_jit_allocations_by_rx st /\
     os_maps (os_state st') = os_maps (os_state st) /\
     os_fds (os_state st') = os_fds (os_state st)) /\
  (rws = true -> rxs = true -> sz = 0 ->
     ret r = -1 /\ out_rw r = Some nullptr /\ out_rx r = Some nullptr /\
     g_jit_allocations_by_rw st' = g_jit_allocations_by_rw st /\
     g_jit_allocations_by_rx st' = g_jit_allocations_by_rx st /\
     os_maps (os_state st') = os_maps (os_state st) /\
     os_fds (os_state st') = os_fds (os_state st) /\
     (((forall f, on_memfd_create o = Grant f ->
                  ~ fd_fresh (os_state st) f) /\
       os_trace (os_state st') =
         os_trace (os_state st) ++ [Sys_memfd_create (-1)] /\
       os_errno (os_state st') =
         match on_memfd_create o with Refuse e => e | Grant _ => EMFILE end)
      \/
      (exists f e,
         on_memfd_create o = Grant f /\ fd_fresh (os_state st) f /\
         on_ftruncate o = Refuse e /\
         os_trace (os_state st') =
           os_trace (os_state st) ++
           [Sys_memfd_create f; Sys_ftruncate f 0 (-1); Sys_close f] /\
         os_errno (os_state st') = e)
      \/
      (exists f t,
         on_memfd_create o = Grant f /\ fd_fresh (os_state st) f /\
         on_ftruncate o = Grant t /\
         os_trace (os_state st') =
           os_trace (os_state st) ++
           [Sys_memfd_create f; Sys_ftruncate f 0 0;
            Sys_mmap 0 PROT_READ_WRITE f MAP_FAILED; Sys_close f] /\
         os_errno (os_state st') = EINVAL))).
Proof.
  intros Hreach Hrun. apply reachable_inv in Hreach. split.
  - intros Hnull. unfold android_jit_alloc in Hrun.
    replace (negb rws || negb rxs) with true in Hrun
      by (destruct Hnull as [-> | ->]; [|destruct rws]; reflexivity).
    injection Hrun as <- <-. repeat split.
  - intros -> -> ->.
    pose proof (alloc_page_ok st Hreach) as Hpage.
    destruct (inv_os _ Hreach) as ((n & Hn & Hp) & _).
    assert (HN : round_up_to_page (alloc_page st) 0 = 0).
    { rewrite Hpage, Hp.
      apply (round_up_to_page_pow2 n 0 Hn); [rewrite SIZE_MOD_value; lia|].
      reflexivity. }
    unfold android_jit_alloc in Hrun. cbn [negb orb] in Hrun.
    set (st0 := if g_initialized st then st else snd (android_jit_init st))
      in Hrun.
    assert (H0 : g_jit_allocations_by_rw st0 = g_jit_allocations_by_rw st /\
                 g_jit_allocations_by_rx st0 = g_jit_allocations_by_rx st /\
                 os_state st0 = os_state st /\
                 g_page_size st0 = alloc_page st).
    { unfold alloc_page. fold st0. subst st0. unfold android_jit_init.
      destruct (g_initialized st); simpl; auto. }
    destruct H0 as (Hbrw & Hbrx & Hk0 & Hpage0).
    rewrite Hpage0, Hk0, HN in Hrun.
    unfold sys_memfd_create in Hrun.
    destruct (on_memfd_create o) as [f|e] eqn:Hmemfd.
    + destruct (decide (fd_fresh (os_state st) f)) as [Hfresh|Hstale].
      * replace (f <? 0) with false in Hrun
          by (symmetry; apply Z.ltb_ge; destruct Hfresh; lia).
        unfold sys_ftruncate in Hrun.
        destruct (on_ftruncate o) as [t|e] eqn:Htrunc.
        -- cbn [Z.ltb Z.compare] in Hrun. unfold sys_mmap in Hrun.
           cbn [Z.eqb] in Hrun. rewrite Z.eqb_refl in Hrun.
           injection Hrun as <- <-. jit_fields. rewrite Hbrw, Hbrx.
           cbn [failed ret out_rw out_rx sys_close log set_errno set_fds
                os_maps os_fds os_errno os_trace].
           repeat split; try reflexivity.
           ++ apply fds_restore, Hfresh.
           ++ right. right. exists f, t. rewrite <- !app_assoc.
              split; [reflexivity|split; [exact Hfresh|]].
              split; [reflexivity|split; reflexivity].
        -- cbn [Z.ltb Z.compare] in Hrun.
           injection Hrun as <- <-. jit_fields. rewrite Hbrw, Hbrx.
           cbn [failed ret out_rw out_rx sys_close log set_errno set_fds
                os_maps os_fds os_errno os_trace].
           repeat split; try reflexivity.
           ++ apply fds_restore, Hfresh.
           ++ right. left. exists f, e. rewrite <- !app_assoc.
              split; [reflexivity|split; [exact Hfresh|]].
              split; [reflexivity|split; reflexivity].
      * cbn [Z.ltb Z.compare] in Hrun.
        injection Hrun as <- <-. jit_fields. rewrite Hbrw, Hbrx.
        cbn [failed ret out_rw out_rx log set_errno
             os_maps os_fds os_errno os_trace].
        repeat split; try reflexivity.
        left. split; [|split; reflexivity].
        intros f' [= <-]. exact Hstale.
    + cbn [Z.ltb Z.compare] in Hrun.
      injection Hrun as <- <-. jit_fields. rewrite Hbrw, Hbrx.
      cbn [failed ret out_rw out_rx log set_errno
           os_maps os_fds os_errno os_trace].
      repeat split; try reflexivity.
      left. split; [|split; reflexivity].
      intros f' Hf. discriminate Hf.
Qed.

Lemma alloc_invalid_argument_witness :
  ret (fst run_zero) = -1 /\
  out_rw (fst run_zero) = Some nullptr /\
  out_rx (fst run_zero) = Some nullptr /\
  g_jit_allocations_by_rw (snd run_zero) = g_jit_allocations_by_rw (boot os0) /\
  g_jit_allocations_by_rx (snd run_zero) = g_jit_allocations_by_rx (boot os0) /\
  os_maps (os_state (snd run_zero)) = os_maps (os_state (boot os0)) /\
  os_fds (os_state (snd run_zero)) = os_fds (os_state (boot os0)) /\
  (((forall f, on_memfd_create (grants 3 (page 1) (page 2)) = Grant f ->
               ~ fd_fresh (os_state (boot os0)) f) /\
    os_trace (os_state (snd run_zero)) =
      os_trace (os_state (boot os0)) ++ [Sys_memfd_create (-1)] /\
    os_errno (os_state (snd run_zero)) =
      match on_memfd_create (grants 3 (page 1) (page 2)) with
      | Refuse e => e
      | Grant _ => EMFILE
      end)
   \/
   (exists f e,
      on_memfd_create (grants 3 (page 1) (page 2)) = Grant f /\
      fd_fresh (os_state (boot os0)) f /\
      on_ftruncate (grants 3 (page 1) (page 2)) = Refuse e /\
      os_trace (os_state (snd run_zero)) =
        os_trace (os_state (boot os0)) ++
        [Sys_memfd_create f; Sys_ftruncate f 0 (-1); Sys_close f] /\
      os_errno (os_state (snd run_zero)) = e)
   \/
   (exists f t,
      on_memfd_create (grants 3 (page 1) (page 2)) = Grant f /\
      fd_fresh (os_state (boot os0)) f /\
      on_ftruncate (grants 3 (page 1) (page 2)) = Grant t /\
      os_trace (os_state (snd run_zero)) =
        os_trace (os_state (boot os0)) ++
        [Sys_memfd_create f; Sys_ftruncate f 0 0;
         Sys_mmap 0 PROT_READ_WRITE f MAP_FAILED; Sys_close f] /\
      os_errno (os_state (snd run_zero)) = EINVAL)).
Proof.
  apply (alloc_invalid_argument (boot os0) 0 true true
           (grants 3 (page 1) (page 2)) (fst run_zero) (snd run_zero)).
  - apply reach_boot, os0_ok.
  - reflexivity.
  - reflexivity.
  - reflexivity.
  - reflexivity.
Defined.

(** C8.  [android_jit_free] with a writable pointer that is not
    registered changes nothing: no system call is made, both indexes and
    every record stay as they are, so every translation answers as
    before.  In particular a second [free] with the same arguments does
    nothing more than the first. *)
Theorem free_unregistered_noop st rw_arg rx_arg sz :
  (smap_find rw_arg (g_jit_allocations_by_rw st) = None ->
   android_jit_free rw_arg rx_arg sz st = st) /\
  android_jit_free rw_arg rx_arg sz (android_jit_free rw_arg rx_arg sz st) =
    android_jit_free rw_arg rx_arg sz st.
Proof.
  assert (Hnoop : forall s,
             (rw_arg =? nullptr) && (rx_arg =? nullptr) = true \/
             smap_find rw_arg (g_jit_allocations_by_rw s) = None ->
             android_jit_free rw_arg rx_arg sz s = s).
  { intros s Hs. unfold android_jit_free.
    destruct Hs as [-> | ->]; [reflexivity|].
    destruct ((rw_arg =? nullptr) && (rx_arg =? nullptr)); reflexivity. }
  split; [intros Hnone; apply Hnoop; right; exact Hnone|].
  apply Hnoop.
  destruct ((rw_arg =? nullptr) && (rx_arg =? nullptr)) eqn:Hnull;
    [left; reflexivity|right].
  unfold android_jit_free. rewrite Hnull.
  destruct (smap_find rw_arg (g_jit_allocations_by_rw st)) as [a|] eqn:Ha.
  - cbn [g_jit_allocations_by_rw].
    rewrite smap_find_erase, Z.eqb_refl. reflexivity.
  - exact Ha.
Qed.

Lemma free_unregistered_noop_witness :
  android_jit_free (page 3) (page 4) 100 st_one = st_one.
Proof.
  apply (proj1 (free_unregistered_noop st_one (page 3) (page 4) 100)).
  vm_compute. reflexivity.
Defined.

(** C9.  The lifecycle is a two-state machine.  (1) [android_jit_init]
    while initialised changes nothing.  (2) [android_jit_shutdown], from
    either state, leaves the subsystem uninitialised with both indexes
    empty, and every allocation that was open is released: its two views
    are unmapped and its descriptor is closed.  (3) After a shutdown and
    a fresh init the subsystem is initialised with the system's page
    size, and an allocation that succeeds there yields two distinct
    non-null views of at least the requested size whose addresses
    translate into each other at every offset. *)
Theorem lifecycle_two_states st :
  reachable st ->
  (g_initialized st = true -> android_jit_init st = (0, st)) /\
  (let st' := android_jit_shutdown st in
   g_initialized st' = false /\
   g_jit_allocations_by_rw st' = [] /\
   g_jit_allocations_by_rx st' = [] /\
   forall a, open st a ->
     os_maps (os_state st') !! rw_ptr a = None /\
     os_maps (os_state st') !! rx_ptr a = None /\
     fd a ∉ os_fds (os_state st')) /\
  (let st1 := snd (android_jit_init (android_jit_shutdown st)) in
   fst (android_jit_init (android_jit_shutdown st)) = 0 /\
   g_initialized st1 = true /\
   g_page_size st1 = os_pagesize (os_state st1) /\
   forall sz rws rxs o r st2,
     0 < sz < SIZE_MOD ->
     android_jit_alloc sz rws rxs o st1 = (r, st2) -> ret r = 0 ->
     exists rw rx N,
       out_rw r = Some rw /\ out_rx r = Some rx /\
       rw <> nullptr /\ rx <> nullptr /\ rw <> rx /\ sz <= N /\
       forall off, 0 <= off < N ->
         android_jit_rw_to_rx (rw + off) st2 = rx + off /\
         android_jit_rx_to_rw (rx + off) st2 = Some (rw + off)).
Proof.
  intros Hreach. pose proof (reachable_inv _ Hreach) as Hinv.
  split; [|split].
  - intros Hi. unfold android_jit_init. rewrite Hi. reflexivity.
  - cbv zeta. repeat split.
    all: apply (shutdown_releases_all (g_jit_allocations_by_rw st)
                  (os_state st)) with (k0 := rw_ptr a);
      try (apply smap_find_In; assumption).
    all: intros k0 b Hb; apply (visited_is_record _ _ _ Hinv) in Hb.
    all: destruct (inv_rw _ Hinv _ _ Hb) as (_ & Hmrw & Hmrx & Hfd & _).
    all: destruct (record_bounds _ _ _ Hinv Hb) as (_ & Hrw & _ & Hrx & _).
    all: repeat split; try lia; right; assumption.
  - cbv zeta.
    assert (Hinv1 : inv (snd (android_jit_init (android_jit_shutdown st))))
      by apply inv_init, inv_shutdown, Hinv.
    repeat split.
    + apply inv_page; [exact Hinv1|reflexivity].
    + intros sz rws rxs o r st2 Hsz Hrun Hret.
      assert (Hinv2 : inv st2)
        by (replace st2 with (snd (android_jit_alloc sz rws rxs o
                (snd (android_jit_init (android_jit_shutdown st)))))
              by (rewrite Hrun; reflexivity); apply inv_alloc, Hinv1).
      destruct (alloc_success_facts _ sz rws rxs o r st2 Hinv1 Hsz Hrun Hret)
        as (rw & rx & f & N & -> & Hrw & Hrx & Hne & Hopen & _ & _ & _ & _
            & _ & _ & HN).
      exists rw, rx, N. cbn [out_rw out_rx].
      repeat split; try assumption; try lia.
      * apply (rw_to_rx_inside st2 _ off Hinv2 Hopen). assumption.
      * apply (rx_to_rw_inside st2 _ off Hinv2 Hopen). assumption.
Qed.

Lemma lifecycle_two_states_witness :
  (android_jit_init st_one = (0, st_one)) /\
  os_maps (os_state (android_jit_shutdown st_one)) !! page 1 = None /\
  exists rw rx N,
    out_rw (fst run_restarted) = Some rw /\
    out_rx (fst run_restarted) = Some rx /\
    rw <> nullptr /\ rx <> nullptr /\ rw <> rx /\ 5000 <= N /\
    forall off, 0 <= off < N ->
      android_jit_rw_to_rx (rw + off) (snd run_restarted) = rx + off /\
      android_jit_rx_to_rw (rx + off) (snd run_restarted) = Some (rw + off).
Proof.
  destruct (lifecycle_two_states st_one st_one_reachable) as (Hinit & Hdown & Hup).
  cbv zeta in Hdown, Hup.
  destruct Hdown as (_ & _ & _ & Hdown). destruct Hup as (_ & _ & _ & Hup).
  split; [apply Hinit; reflexivity|].
  split; [apply (Hdown alloc_one); vm_compute; reflexivity|].
  apply Hup with (sz := 5000) (rws := true) (rxs := true)
                 (o := grants 3 (page 2) (page 4)).
  - vm_compute. split; reflexivity.
  - reflexivity.
  - reflexivity.
Defined.

(** C10.  The size argument of [android_jit_free] has no effect: two
    calls that differ only in it end in the same state.  On a registered
    pointer the calls issued are the two unmaps with the recorded size
    and the close of the recorded descriptor. *)
Theorem free_ignores_size st rw_arg rx_arg s1 s2 :
  android_jit_free rw_arg rx_arg s1 st = android_jit_free rw_arg rx_arg s2 st /\
  (forall a, reachable st -> open st a -> rw_arg = rw_ptr a ->
     os_trace (os_state (android_jit_free rw_arg rx_arg s1 st)) =
     os_trace (os_state st) ++
     [Sys_munmap (rw_ptr a) (size a); Sys_munmap (rx_ptr a) (size a);
      Sys_close (fd a)]).
Proof.
  split; [reflexivity|].
  intros a Hreach Ha ->. apply reachable_inv in Hreach.
  rewrite free_registered by assumption. cbn [os_state].
  apply (release_registered st (rw_ptr a) a Hreach Ha).
Qed.

Lemma free_ignores_size_witness :
  android_jit_free (page 1) (page 2) 100 st_one =
    android_jit_free (page 1) (page 2) 4096 st_one /\
  os_trace (os_state (android_jit_free (page 1) (page 2) 100 st_one)) =
    os_trace (os_state st_one) ++
    [Sys_munmap (rw_ptr alloc_one) (size alloc_one);
     Sys_munmap (rx_ptr alloc_one) (size alloc_one);
     Sys_close (fd alloc_one)].
Proof.
  destruct (free_ignores_size st_one (page 1) (page 2) 100 4096) as [Hsame Hrec].
  split; [exact Hsame|].
  apply (Hrec alloc_one).
  - exact st_one_reachable.
  - vm_compute. reflexivity.
  - reflexivity.
Defined.

End Claims.

(** * Further properties of the allocator *)

(** ** More about the model's building blocks *)
Section MoreFacts.

(** Erasing a key right after assigning it gives the map back, when the
    key was not there. *)
Lemma smap_erase_assign {V : Type} k (v : V) (m : list (Z * V)) :
  smap_find k m = None -> smap_erase k (smap_assign k v m) = m.
Proof.
  induction m as [|[k0 v0] m IH]; simpl.
  - intros _. rewrite Z.eqb_refl. reflexivity.
  - destruct (k0 =? k) eqn:H0; [discriminate|]. intros Hnone.
    assert (Hrest : smap_erase k m = m).
    { clear IH. induction m as [|[k1 v1] m IHm]; simpl; [reflexivity|].
      simpl in Hnone. destruct (k1 =? k); [discriminate|].
      rewrite IHm by assumption. reflexivity. }
    destruct (k <? k0); simpl.
    + rewrite Z.eqb_refl, H0, Hrest. reflexivity.
    + rewrite (Z.eqb_sym k k0), H0. simpl. rewrite H0, IH by assumption.
      reflexivity.
Qed.

Lemma release_pagesize a k : os_pagesize (release a k) = os_pagesize k.
Proof.
  unfold release.
  assert (H1 : os_pagesize (if rw_ptr a =? nullptr then k
                            else sys_munmap (rw_ptr a) (size a) k) =
               os_pagesize k)
    by (destruct (rw_ptr a =? nullptr); [reflexivity|apply sys_munmap_spec]).
  revert H1. generalize (if rw_ptr a =? nullptr then k
                         else sys_munmap (rw_ptr a) (size a) k).
  intros k1 H1.
  assert (H2 : os_pagesize (if rx_ptr a =? nullptr then k1
                            else sys_munmap (rx_ptr a) (size a) k1) =
               os_pagesize k)
    by (destruct (rx_ptr a =? nullptr);
        [exact H1|rewrite <- H1; apply sys_munmap_spec]).
  revert H2. generalize (if rx_ptr a =? nullptr then k1
                         else sys_munmap (rx_ptr a) (size a) k1).
  intros k2 H2.
  destruct (0 <=? fd a); [|exact H2].
  rewrite <- H2. apply sys_close_spec.
Qed.

Lemma release_all_pagesize (m : list (Z * JitAllocation)) k :
  os_pagesize (fold_left (fun k kv => release (snd kv) k) m k) = os_pagesize k.
Proof.
  revert k. induction m as [|[k0 a0] m IH]; intros k; simpl; [reflexivity|].
  rewrite IH. apply release_pagesize.
Qed.

(** [release] leaves alone every mapping and descriptor that is not the
    record's. *)
Lemma release_other_map a k b :
  b <> rw_ptr a -> b <> rx_ptr a ->
  os_maps (release a k) !! b = os_maps k !! b.
Proof.
  intros Hrw Hrx. unfold release.
  assert (Hm : forall addr len k0, b <> addr ->
             os_maps (sys_munmap addr len k0) !! b = os_maps k0 !! b).
  { intros addr len k0 Hne.
    destruct (sys_munmap_spec addr len k0) as (_ & _ & _ & [[_ M]|[_ M]]);
      rewrite M; [apply lookup_delete_ne; congruence|reflexivity]. }
  assert (H1 : os_maps (if rw_ptr a =? nullptr then k
                        else sys_munmap (rw_ptr a) (size a) k) !! b =
               os_maps k !! b)
    by (destruct (rw_ptr a =? nullptr); [reflexivity|apply Hm, Hrw]).
  revert H1. generalize (if rw_ptr a =? nullptr then k
                         else sys_munmap (rw_ptr a) (size a) k).
  intros k1 H1.
  assert (H2 : os_maps (if rx_ptr a =? nullptr then k1
                        else sys_munmap (rx_ptr a) (size a) k1) !! b =
               os_maps k !! b)
    by (destruct (rx_ptr a =? nullptr);
        [exact H1|rewrite <- H1; apply Hm, Hrx]).
  revert H2. generalize (if rx_ptr a =? nullptr then k1
                         else sys_munmap (rx_ptr a) (size a) k1).
  intros k2 H2.
  destruct (0 <=? fd a); [|exact H2].
  rewrite <- H2. destruct (sys_close_spec (fd a) k2) as (_ & -> & _).
  reflexivity.
Qed.

Lemma release_other_fd a k x :
  x <> fd a -> (x ∈ os_fds (release a k) <-> x ∈ os_fds k).
Proof.
  intros Hx. unfold release.
  assert (H1 : os_fds (if rw_ptr a =? nullptr then k
                       else sys_munmap (rw_ptr a) (size a) k) = os_fds k)
    by (destruct (rw_ptr a =? nullptr); [reflexivity|apply sys_munmap_spec]).
  revert H1. generalize (if rw_ptr a =? nullptr then k
                         else sys_munmap (rw_ptr a) (size a) k).
  intros k1 H1.
  assert (H2 : os_fds (if rx_ptr a =? nullptr then k1
                       else sys_munmap (rx_ptr a) (size a) k1) = os_fds k)
    by (destruct (rx_ptr a =? nullptr);
        [exact H1|rewrite <- H1; apply sys_munmap_spec]).
  revert H2. generalize (if rx_ptr a =? nullptr then k1
                         else sys_munmap (rx_ptr a) (size a) k1).
  intros k2 H2.
  destruct (0 <=? fd a); [|rewrite H2; reflexivity].
  destruct (sys_close_spec (fd a) k2) as (_ & _ & -> & _).
  rewrite H2, elem_of_difference, elem_of_singleton. tauto.
Qed.

(** With non-null views and a valid descriptor, [release] issues its
    three calls whatever the kernel's tables hold. *)
Lemma release_trace a k :
  rw_ptr a <> 0 -> rx_ptr a <> 0 -> 0 <= fd a ->
  os_trace (release a k) = os_trace k ++ release_calls a.
Proof.
  intros Hrw Hrx Hfd. unfold release, nullptr, release_calls.
  replace (rw_ptr a =? 0) with false by (symmetry; apply Z.eqb_neq; lia).
  replace (rx_ptr a =? 0) with false by (symmetry; apply Z.eqb_neq; lia).
  replace (0 <=? fd a) with true by (symmetry; apply Z.leb_le; lia).
  destruct (sys_close_spec (fd a)
              (sys_munmap (rx_ptr a) (size a)
                 (sys_munmap (rw_ptr a) (size a) k))) as (_ & _ & _ & ->).
  destruct (sys_munmap_spec (rx_ptr a) (size a)
              (sys_munmap (rw_ptr a) (size a) k)) as (_ & _ & -> & _).
  destruct (sys_munmap_spec (rw_ptr a) (size a) k) as (_ & _ & -> & _).
  rewrite <- !app_assoc. reflexivity.
Qed.

Lemma exec_pagesize c st :
  inv st -> os_pagesize (os_state (exec c st)) = os_pagesize (os_state st).
Proof.
  intros Hinv. destruct c as [| |sz rws rxs o|rw_arg rx_arg sz|]; simpl.
  - unfold android_jit_init. destruct (g_initialized st); reflexivity.
  - apply release_all_pagesize.
  - destruct (android_jit_alloc sz rws rxs o st) as [r st'] eqn:E.
    apply alloc_spec_holds in E; [|apply inv_os, Hinv]. cbn [snd].
    destruct E as [?|? ? ? ? ? ? ? ? Hp ? ? ? ?|? ? ? ? ? ? ? ? ? ? ? ? ? P2 ? ? ?];
      [reflexivity|exact Hp|exact P2].
  - unfold android_jit_free.
    destruct ((rw_arg =? nullptr) && (rx_arg =? nullptr)); [reflexivity|].
    destruct (smap_find rw_arg (g_jit_allocations_by_rw st)); [|reflexivity].
    apply release_pagesize.
  - unfold android_jit_page_size. destruct (g_page_size st =? 0); reflexivity.
Qed.

Lemma probed_page st :
  inv st ->
  (let probed := to_size_t (sys_sysconf_pagesize (os_state st)) in
   if probed =? 0 then 4096 else probed) = os_pagesize (os_state st).
Proof.
  intros Hinv. cbv zeta.
  destruct (inv_os _ Hinv) as ((n & Hn & Hp) & _).
  unfold sys_sysconf_pagesize. rewrite Hp.
  pose proof (pow2_below_word n Hn).
  rewrite to_size_t_small by lia.
  replace (2 ^ n =? 0) with false by (symmetry; apply Z.eqb_neq; lia).
  reflexivity.
Qed.

Lemma lifecycle_inv_boot k : lifecycle_inv (boot k).
Proof.
  split; simpl; [left; reflexivity|intros _; split; reflexivity|discriminate].
Qed.

Lemma lifecycle_inv_exec c st :
  inv st -> lifecycle_inv st -> lifecycle_inv (exec c st).
Proof.
  intros Hinv Hli. pose proof Hli as [Hpage Hempty Hsizes].
  pose proof (exec_pagesize c st Hinv) as Hps.
  destruct c as [| |sz rws rxs o|rw_arg rx_arg sz|]; cbn [exec] in *.
  - unfold android_jit_init in *. destruct (g_initialized st) eqn:Hi;
      cbn [snd] in *; [exact Hli|].
    split; cbn [g_page_size g_initialized os_state
                g_jit_allocations_by_rw g_jit_allocations_by_rx].
    + right. apply (probed_page st Hinv).
    + discriminate.
    + exact Hsizes.
  - unfold android_jit_shutdown in *.
    split; cbn [g_page_size g_initialized os_state
                g_jit_allocations_by_rw g_jit_allocations_by_rx] in *.
    + rewrite Hps. exact Hpage.
    + intros _. split; reflexivity.
    + discriminate.
  - destruct (android_jit_alloc sz rws rxs o st) as [r st'] eqn:E.
    pose proof (alloc_page_ok st Hinv) as Hap.
    apply alloc_spec_holds in E; [|apply inv_os, Hinv]. cbn [snd] in *.
    destruct E as [Hnull|st' evs _ _ Hrw Hrx Hpg Hi _ _ _ _ _
                  |f rw rx k1 k2 N _ _ _ Hfit _ _ _ _ _ _ _].
    + split; jit_fields; assumption.
    + split; rewrite ?Hrw, ?Hrx, ?Hps.
      * right. congruence.
      * congruence.
      * exact Hsizes.
    + cbn [os_state] in Hps. split; jit_fields; rewrite ?Hps.
      * right. exact Hap.
      * discriminate.
      * intros k a. rewrite smap_find_assign.
        destruct (rw =? k); [|apply Hsizes].
        intros [= <-]. cbn [size].
        destruct (inv_os _ Hinv) as ((n & Hn & Hp) & _).
        unfold N. rewrite Hap, Hp.
        unfold round_up_to_page. rewrite mask_low_bits;
          [|assumption|apply Z.mod_pos_bound; rewrite SIZE_MOD_value; lia].
        rewrite Z.mul_comm. apply Z.mod_mul.
        pose proof (pow2_below_word n Hn). lia.
  - unfold android_jit_free in *.
    destruct ((rw_arg =? nullptr) && (rx_arg =? nullptr)); [exact Hli|].
    destruct (smap_find rw_arg (g_jit_allocations_by_rw st)) as [a|] eqn:Ha;
      [|exact Hli].
    split; cbn [g_page_size g_initialized os_state
                g_jit_allocations_by_rw g_jit_allocations_by_rx] in *.
    + rewrite Hps. exact Hpage.
    + intros Hi. destruct (Hempty Hi) as [Hnil _].
      rewrite Hnil in Ha. discriminate.
    + intros k b. rewrite smap_find_erase, Hps.
      destruct (rw_arg =? k); [discriminate|apply Hsizes].
  - unfold android_jit_page_size in *.
    destruct (g_page_size st =? 0) eqn:Hz; cbn [snd] in *; [|exact Hli].
    split; cbn [g_page_size g_initialized os_state
                g_jit_allocations_by_rw g_jit_allocations_by_rx].
    + right. apply (probed_page st Hinv).
    + exact Hempty.
    + exact Hsizes.
Qed.

Lemma reachable_lifecycle_inv st : reachable st -> lifecycle_inv st.
Proof.
  induction 1 as [k Hk|c st Hr IH].
  - apply lifecycle_inv_boot.
  - apply lifecycle_inv_exec; [apply reachable_inv, Hr|exact IH].
Qed.

End MoreFacts.

(** ** The concrete runs, continued *)
Section MoreScenarioFacts.
Import Scenario.

Lemma st_two_reachable : reachable st_two.
Proof. apply reach_call, st_one_reachable. Qed.

Lemma st_two_open_one : open st_two alloc_one.
Proof. vm_compute. reflexivity. Qed.

Lemma st_two_open_B : open st_two alloc_B.
Proof. vm_compute. reflexivity. Qed.

End MoreScenarioFacts.

(** ** Rounding, page size and initialisation *)
Section PageSize.
Import Scenario.

(** X1.  When the page size is a power of two and [sz + page - 1] does not
    overflow, [round_up_to_page] returns the least multiple of the page
    size that is at least [sz]; a multiple of the page size is returned
    as it is. *)
Theorem round_up_to_page_least_multiple n sz :
  0 <= n < 63 -> 0 <= sz -> sz + 2 ^ n - 1 < SIZE_MOD ->
  let N := round_up_to_page (2 ^ n) sz in
  N mod 2 ^ n = 0 /\ sz <= N < sz + 2 ^ n /\
  (sz mod 2 ^ n = 0 -> N = sz) /\
  (forall M, M mod 2 ^ n = 0 -> sz <= M -> N <= M).
Proof.
  intros Hn Hsz Hfit N. pose proof (pow2_below_word n Hn) as Hp.
  assert (HN : N = 2 ^ n * ((sz + 2 ^ n - 1) / 2 ^ n)).
  { unfold N, round_up_to_page.
    rewrite (to_size_t_small (sz + 2 ^ n - 1)) by lia.
    apply mask_low_bits; [assumption|lia]. }
  pose proof (Z.div_mod (sz + 2 ^ n - 1) (2 ^ n) ltac:(lia)) as Hdm.
  pose proof (Z.mod_pos_bound (sz + 2 ^ n - 1) (2 ^ n) ltac:(lia)) as Hmb.
  assert (Hmod : N mod 2 ^ n = 0)
    by (rewrite HN, Z.mul_comm; apply Z.mod_mul; lia).
  assert (Hbound : sz <= N < sz + 2 ^ n) by lia.
  assert (Hleast : forall M, M mod 2 ^ n = 0 -> sz <= M -> N <= M).
  { intros M HM HszM.
    pose proof (Z.div_mod M (2 ^ n) ltac:(lia)) as HMd. rewrite HM in HMd.
    assert (Hlt : (sz + 2 ^ n - 1) / 2 ^ n < M / 2 ^ n + 1) by nia.
    nia. }
  repeat split; try assumption; try lia.
  intros Hszmod. apply Z.le_antisymm; [|lia]. apply Hleast; [assumption|lia].
Qed.

Lemma round_up_to_page_least_multiple_witness :
  round_up_to_page (2 ^ 12) 100 mod 2 ^ 12 = 0 /\
  100 <= round_up_to_page (2 ^ 12) 100 < 100 + 2 ^ 12.
Proof.
  destruct (round_up_to_page_least_multiple 12 100) as (H1 & H2 & _).
  - lia.
  - lia.
  - vm_compute. reflexivity.
  - split; [exact H1|exact H2].
Defined.

(** X2.  A request within a page of the top of the [size_t] range makes the
    rounding wrap around to zero; the allocation then always fails with -1
    and leaves the registry, the mappings and the descriptors as they
    were.  No region smaller than requested is ever handed out. *)
Theorem alloc_oversized_fails st sz rws rxs o r st' :
  reachable st ->
  SIZE_MOD - os_pagesize (os_state st) < sz < SIZE_MOD ->
  android_jit_alloc sz rws rxs o st = (r, st') ->
  round_up_to_page (os_pagesize (os_state st)) sz = 0 /\
  ret r = -1 /\
  g_jit_allocations_by_rw st' = g_jit_allocations_by_rw st /\
  g_jit_allocations_by_rx st' = g_jit_allocations_by_rx st /\
  os_maps (os_state st') = os_maps (os_state st) /\
  os_fds (os_state st') = os_fds (os_state st).
Proof.
  intros Hreach Hsz Hrun. apply reachable_inv in Hreach.
  destruct (inv_os _ Hreach) as ((n & Hn & Hp) & _).
  pose proof (pow2_below_word n Hn) as Hpow.
  assert (Hzero : round_up_to_page (os_pagesize (os_state st)) sz = 0).
  { rewrite Hp in *.
    destruct (round_up_to_page_pow2 n sz Hn ltac:(lia))
      as (Hrange & Hmod & Hbound & _).
    destruct (Z.eq_dec (round_up_to_page (2 ^ n) sz) 0) as [H0|H0];
      [exact H0|exfalso].
    specialize (Hbound H0).
    pose proof (Z.div_mod (round_up_to_page (2 ^ n) sz) (2 ^ n) ltac:(lia))
      as Hd.
    rewrite Hmod in Hd.
    assert (Hsplit : SIZE_MOD = 2 ^ n * 2 ^ (64 - n)).
    { unfold SIZE_MOD. rewrite <- Z.pow_add_r by lia. f_equal. lia. }
    set (q := round_up_to_page (2 ^ n) sz / 2 ^ n) in *.
    set (N := round_up_to_page (2 ^ n) sz) in *.
    assert (2 ^ n * (2 ^ (64 - n) - 1) < 2 ^ n * q) by lia.
    assert (2 ^ n * q < 2 ^ n * 2 ^ (64 - n)) by lia.
    assert (2 ^ (64 - n) - 1 < q) by nia.
    assert (q < 2 ^ (64 - n)) by nia.
    lia. }
  split; [exact Hzero|].
  pose proof (alloc_page_ok st Hreach) as Hap.
  apply alloc_spec_holds in Hrun; [|apply inv_os, Hreach].
  destruct Hrun as [Hnull|st' evs _ _ Hrw Hrx _ _ _ Hm Hf _ _
                   |f rw rx k1 k2 N _ _ _ Hfit _ _ _ _ _ _ _].
  - repeat split.
  - repeat split; assumption.
  - exfalso. destruct Hfit as (Hpos & _). unfold N in Hpos.
    rewrite Hap, Hzero in Hpos. lia.
Qed.

Lemma alloc_oversized_fails_witness :
  round_up_to_page (os_pagesize (os_state (boot os0))) (SIZE_MOD - 5) = 0 /\
  ret (fst run_oversized) = -1 /\
  g_jit_allocations_by_rw (snd run_oversized) =
    g_jit_allocations_by_rw (boot os0) /\
  g_jit_allocations_by_rx (snd run_oversized) =
    g_jit_allocations_by_rx (boot os0) /\
  os_maps (os_state (snd run_oversized)) = os_maps (os_state (boot os0)) /\
  os_fds (os_state (snd run_oversized)) = os_fds (os_state (boot os0)).
Proof.
  apply (alloc_oversized_fails (boot os0) (SIZE_MOD - 5) true true
           (grants 3 (page 1) (page 2))).
  - apply reach_boot, os0_ok.
  - vm_compute. split; reflexivity.
  - reflexivity.
Defined.

(** X3.  [android_jit_page_size] never returns zero, whatever [sysconf]
    reports; it caches what it returns, so a second call returns the same
    value and changes nothing; it touches neither the registry, nor the
    initialisation flag, nor the kernel.  In a reachable state the value
    is the system's page size. *)
Theorem page_size_cached st :
  let v := fst (android_jit_page_size st) in
  let st' := snd (android_jit_page_size st) in
  v <> 0 /\ g_page_size st' = v /\
  android_jit_page_size st' = (v, st') /\
  g_jit_allocations_by_rw st' = g_jit_allocations_by_rw st /\
  g_jit_allocations_by_rx st' = g_jit_allocations_by_rx st /\
  g_initialized st' = g_initialized st /\
  os_state st' = os_state st /\
  (reachable st -> v = os_pagesize (os_state st)).
Proof.
  cbv zeta. unfold android_jit_page_size.
  destruct (g_page_size st =? 0) eqn:Hz; cbn [fst snd g_page_size].
  - set (page := if to_size_t (sys_sysconf_pagesize (os_state st)) =? 0
                 then 4096
                 else to_size_t (sys_sysconf_pagesize (os_state st))).
    assert (Hpage : page <> 0).
    { unfold page.
      destruct (to_size_t (sys_sysconf_pagesize (os_state st)) =? 0) eqn:H0;
        [discriminate|apply Z.eqb_neq, H0]. }
    repeat split; try assumption.
    + replace (page =? 0) with false
        by (symmetry; apply Z.eqb_neq; assumption).
      reflexivity.
    + intros Hreach. apply (probed_page st (reachable_inv _ Hreach)).
  - apply Z.eqb_neq in Hz. rewrite (proj2 (Z.eqb_neq _ _) Hz).
    repeat split; try assumption.
    intros Hreach.
    destruct (page_cached _ (reachable_lifecycle_inv _ Hreach));
      [contradiction|assumption].
Qed.

Lemma page_size_cached_witness :
  fst (android_jit_page_size st_one) = os_pagesize (os_state st_one).
Proof.
  destruct (page_size_cached st_one) as (_ & _ & _ & _ & _ & _ & _ & H).
  apply H, st_one_reachable.
Defined.

(** X4.  [android_jit_init] always returns 0 and leaves the subsystem
    initialised; it touches neither the registry nor the kernel, and a
    second call changes nothing.  In a reachable state the cached page
    size is afterwards the system's; when the subsystem was not
    initialised and [sysconf] reports zero, the page size falls back to
    4096. *)
Theorem init_probes_page_size st :
  let st' := snd (android_jit_init st) in
  fst (android_jit_init st) = 0 /\
  g_initialized st' = true /\
  g_jit_allocations_by_rw st' = g_jit_allocations_by_rw st /\
  g_jit_allocations_by_rx st' = g_jit_allocations_by_rx st /\
  os_state st' = os_state st /\
  android_jit_init st' = (0, st') /\
  (reachable st -> g_page_size st' = os_pagesize (os_state st)) /\
  (g_initialized st = false ->
   to_size_t (os_pagesize (os_state st)) = 0 -> g_page_size st' = 4096).
Proof.
  cbv zeta. unfold android_jit_init.
  destruct (g_initialized st) eqn:Hi;
    cbn [fst snd g_initialized g_page_size os_state
         g_jit_allocations_by_rw g_jit_allocations_by_rx].
  - rewrite Hi. repeat split; try assumption; [|discriminate].
    intros Hreach. apply inv_page; [apply reachable_inv, Hreach|exact Hi].
  - repeat split.
    + intros Hreach. apply (probed_page st (reachable_inv _ Hreach)).
    + intros _ Hzero. unfold sys_sysconf_pagesize. rewrite Hzero. reflexivity.
Qed.

Lemma init_probes_page_size_witness :
  g_page_size (snd (android_jit_init (boot os0))) =
    os_pagesize (os_state (boot os0)).
Proof.
  destruct (init_probes_page_size (boot os0)) as (_ & _ & _ & _ & _ & _ & H & _).
  apply H, reach_boot, os0_ok.
Defined.

End PageSize.

(** ** Allocation and release *)
Section AllocFree.
Import Scenario.

Lemma open_after_alloc st sz rws rxs o r st' b :
  inv st -> android_jit_alloc sz rws rxs o st = (r, st') ->
  open st b -> open st' b.
Proof.
  intros Hinv Hrun Hb. unfold open in *.
  apply alloc_spec_holds in Hrun; [|apply inv_os, Hinv].
  destruct Hrun as [Hnull|st' evs _ _ Hrw _ _ _ _ _ _ _ _
                   |f rw rx k1 k2 N _ _ _ Hfit _ _ _ _ _ _ _].
  - exact Hb.
  - rewrite Hrw. exact Hb.
  - cbn [g_jit_allocations_by_rw]. rewrite smap_find_assign.
    destruct (rw =? rw_ptr b) eqn:Hk; [exfalso|exact Hb].
    apply Z.eqb_eq in Hk.
    destruct (inv_rw _ Hinv _ _ Hb) as (_ & Hm & _).
    rewrite <- Hk in Hm.
    rewrite (mmap_fits_unmapped _ _ _ (inv_os _ Hinv) Hfit) in Hm.
    discriminate.
Qed.

Lemma open_after_free st rw_arg rx_arg sz b :
  open st b -> rw_ptr b <> rw_arg ->
  open (android_jit_free rw_arg rx_arg sz st) b.
Proof.
  intros Hb Hne. unfold open, android_jit_free in *.
  destruct ((rw_arg =? nullptr) && (rx_arg =? nullptr)); [exact Hb|].
  destruct (smap_find rw_arg (g_jit_allocations_by_rw st)); [|exact Hb].
  cbn [g_jit_allocations_by_rw]. rewrite smap_find_erase.
  replace (rw_arg =? rw_ptr b) with false
    by (symmetry; apply Z.eqb_neq; congruence).
  exact Hb.
Qed.

(** What being open means in a state that satisfies the invariant. *)
Lemma open_facts st b :
  inv st -> open st b ->
  os_maps (os_state st) !! rw_ptr b = Some (size b) /\
  os_maps (os_state st) !! rx_ptr b = Some (size b) /\
  fd b ∈ os_fds (os_state st) /\
  forall off, 0 <= off < size b ->
    android_jit_rw_to_rx (rw_ptr b + off) st = rx_ptr b + off /\
    android_jit_rx_to_rw (rx_ptr b + off) st = Some (rw_ptr b + off).
Proof.
  intros Hinv Hb.
  destruct (inv_rw _ Hinv _ _ Hb) as (_ & Hmrw & Hmrx & _ & Hfd & _).
  repeat split; try assumption.
  - apply rw_to_rx_inside; assumption.
  - apply rx_to_rw_inside; assumption.
Qed.

(** X5.  [android_jit_alloc] returns 0 or -1.  It returns 0 only when both
    output slots are non-null.  When it returns -1, on whichever step it
    failed, the two indexes, the mappings and the descriptors are what
    they were, and each output slot is either untouched (null-slot case)
    or holds null.  With non-null slots the subsystem is initialised
    afterwards, with the system's page size, even when the call fails. *)
Theorem alloc_all_or_nothing st sz rws rxs o r st' :
  reachable st ->
  android_jit_alloc sz rws rxs o st = (r, st') ->
  (ret r = 0 \/ ret r = -1) /\
  (ret r = 0 -> rws = true /\ rxs = true) /\
  (ret r = -1 ->
     g_jit_allocations_by_rw st' = g_jit_allocations_by_rw st /\
     g_jit_allocations_by_rx st' = g_jit_allocations_by_rx st /\
     os_maps (os_state st') = os_maps (os_state st) /\
     os_fds (os_state st') = os_fds (os_state st) /\
     ((out_rw r = None /\ out_rx r = None) \/
      (out_rw r = Some nullptr /\ out_rx r = Some nullptr))) /\
  (rws = true -> rxs = true ->
     g_initialized st' = true /\
     g_page_size st' = os_pagesize (os_state st')).
Proof.
  intros Hreach Hrun. apply reachable_inv in Hreach.
  pose proof (alloc_page_ok st Hreach) as Hap.
  apply alloc_spec_holds in Hrun; [|apply inv_os, Hreach].
  destruct Hrun as [Hnull|st' evs Hs1 Hs2 Hrw Hrx Hpg Hi Hp Hm Hf _ _
                   |f rw rx k1 k2 N Hs1 Hs2 _ _ _ _ _ P2 _ _ _].
  - split; [right; reflexivity|split; [discriminate|split]].
    + intros _. repeat split. left. split; reflexivity.
    + intros -> ->. discriminate Hnull.
  - split; [right; reflexivity|split; [discriminate|split]].
    + intros _. repeat split; try assumption. right. split; reflexivity.
    + intros _ _. split; congruence.
  - split; [left; reflexivity|split; [intros _; split; assumption|split]].
    + discriminate.
    + intros _ _. jit_fields. split; congruence.
Qed.

Lemma alloc_all_or_nothing_witness :
  g_jit_allocations_by_rw (snd run_rx_refused) =
    g_jit_allocations_by_rw (boot os0) /\
  g_jit_allocations_by_rx (snd run_rx_refused) =
    g_jit_allocations_by_rx (boot os0) /\
  os_maps (os_state (snd run_rx_refused)) = os_maps (os_state (boot os0)) /\
  os_fds (os_state (snd run_rx_refused)) = os_fds (os_state (boot os0)) /\
  ((out_rw (fst run_rx_refused) = None /\ out_rx (fst run_rx_refused) = None) \/
   (out_rw (fst run_rx_refused) = Some nullptr /\
    out_rx (fst run_rx_refused) = Some nullptr)).
Proof.
  destruct (alloc_all_or_nothing (boot os0) 100 true true
              {| on_memfd_create := Grant 3; on_ftruncate := Grant 0;
                 on_mmap_rw := Grant (page 1); on_mmap_rx := Refuse ENOMEM |}
              (fst run_rx_refused) (snd run_rx_refused))
    as (_ & _ & H & _).
  - apply reach_boot, os0_ok.
  - reflexivity.
  - apply H. reflexivity.
Defined.

(** X6.  An allocation, successful or not, does not disturb the
    allocations already open: each keeps its record, its two mappings and
    its descriptor, and its addresses translate as before. *)
Theorem alloc_keeps_existing st sz rws rxs o r st' b :
  reachable st ->
  android_jit_alloc sz rws rxs o st = (r, st') ->
  open st b ->
  open st' b /\
  os_maps (os_state st') !! rw_ptr b = Some (size b) /\
  os_maps (os_state st') !! rx_ptr b = Some (size b) /\
  fd b ∈ os_fds (os_state st') /\
  forall off, 0 <= off < size b ->
    android_jit_rw_to_rx (rw_ptr b + off) st' = rx_ptr b + off /\
    android_jit_rx_to_rw (rx_ptr b + off) st' = Some (rw_ptr b + off).
Proof.
  intros Hreach Hrun Hb. apply reachable_inv in Hreach.
  assert (Hinv' : inv st')
    by (replace st' with (snd (android_jit_alloc sz rws rxs o st))
          by (rewrite Hrun; reflexivity); apply inv_alloc, Hreach).
  pose proof (open_after_alloc _ _ _ _ _ _ _ _ Hreach Hrun Hb) as Hb'.
  split; [exact Hb'|]. apply open_facts; assumption.
Qed.

Lemma alloc_keeps_existing_witness :
  open st_two alloc_one /\
  os_maps (os_state st_two) !! rw_ptr alloc_one = Some (size alloc_one) /\
  os_maps (os_state st_two) !! rx_ptr alloc_one = Some (size alloc_one) /\
  fd alloc_one ∈ os_fds (os_state st_two) /\
  forall off, 0 <= off < size alloc_one ->
    android_jit_rw_to_rx (rw_ptr alloc_one + off) st_two =
      rx_ptr alloc_one + off /\
    android_jit_rx_to_rw (rx_ptr alloc_one + off) st_two =
      Some (rw_ptr alloc_one + off).
Proof.
  apply (alloc_keeps_existing st_one 100 true true
           (grants 4 (page 3) (page 4))
           (fst (android_jit_alloc 100 true true
                   (grants 4 (page 3) (page 4)) st_one)) st_two).
  - exact st_one_reachable.
  - reflexivity.
  - vm_compute. reflexivity.
Defined.

(** X7.  Freeing one allocation does not disturb the others: every open
    allocation with another writable base keeps its record, its two
    mappings and its descriptor, and its addresses translate as before. *)
Theorem free_keeps_others st rw_arg rx_arg sz b :
  reachable st -> open st b -> rw_ptr b <> rw_arg ->
  let st' := android_jit_free rw_arg rx_arg sz st in
  open st' b /\
  os_maps (os_state st') !! rw_ptr b = Some (size b) /\
  os_maps (os_state st') !! rx_ptr b = Some (size b) /\
  fd b ∈ os_fds (os_state st') /\
  forall off, 0 <= off < size b ->
    android_jit_rw_to_rx (rw_ptr b + off) st' = rx_ptr b + off /\
    android_jit_rx_to_rw (rx_ptr b + off) st' = Some (rw_ptr b + off).
Proof.
  intros Hreach Hb Hne st'. apply reachable_inv in Hreach.
  assert (Hinv' : inv st') by apply inv_free, Hreach.
  pose proof (open_after_free st rw_arg rx_arg sz b Hb Hne) as Hb'.
  split; [exact Hb'|]. apply open_facts; assumption.
Qed.

Lemma free_keeps_others_witness :
  let st' := android_jit_free (page 1) (page 2) 100 st_two in
  open st' alloc_B /\
  os_maps (os_state st') !! rw_ptr alloc_B = Some (size alloc_B) /\
  os_maps (os_state st') !! rx_ptr alloc_B = Some (size alloc_B) /\
  fd alloc_B ∈ os_fds (os_state st') /\
  forall off, 0 <= off < size alloc_B ->
    android_jit_rw_to_rx (rw_ptr alloc_B + off) st' = rx_ptr alloc_B + off /\
    android_jit_rx_to_rw (rx_ptr alloc_B + off) st' =
      Some (rw_ptr alloc_B + off).
Proof.
  apply (free_keeps_others st_two (page 1) (page 2) 100 alloc_B).
  - exact st_two_reachable.
  - vm_compute. reflexivity.
  - vm_compute. discriminate.
Defined.

(** X8.  An allocation followed by the release of the pair it returned
    (with any size argument) restores both indexes, the mappings and the
    descriptors exactly; the seven system calls of the round trip are the
    four of the allocation and the three of the release, all with the
    requested size rounded up to the page size. *)
Theorem alloc_free_round_trip st sz rws rxs o r st' rw rx s :
  reachable st ->
  android_jit_alloc sz rws rxs o st = (r, st') -> ret r = 0 ->
  out_rw r = Some rw -> out_rx r = Some rx ->
  let st'' := android_jit_free rw rx s st' in
  g_jit_allocations_by_rw st'' = g_jit_allocations_by_rw st /\
  g_jit_allocations_by_rx st'' = g_jit_allocations_by_rx st /\
  os_maps (os_state st'') = os_maps (os_state st) /\
  os_fds (os_state st'') = os_fds (os_state st) /\
  exists f,
    let N := round_up_to_page (os_pagesize (os_state st)) sz in
    os_trace (os_state st'') = os_trace (os_state st) ++
      [Sys_memfd_create f; Sys_ftruncate f N 0;
       Sys_mmap N PROT_READ_WRITE f rw; Sys_mmap N PROT_READ_EXEC f rx;
       Sys_munmap rw N; Sys_munmap rx N; Sys_close f].
Proof.
  intros Hreach Hrun Hret Hrw Hrx. apply reachable_inv in Hreach.
  assert (Hinv' : inv st')
    by (replace st' with (snd (android_jit_alloc sz rws rxs o st))
          by (rewrite Hrun; reflexivity); apply inv_alloc, Hreach).
  apply alloc_spec_holds in Hrun; [|apply inv_os, Hreach].
  destruct Hrun as [?|? ? ? ? ? ? ? ? ? ? ? ? ?
                   |f rw0 rx0 k1 k2 N _ _ Hfresh Hfit1 P1 M1 Hfit2 P2 M2 F2 T2];
    try discriminate Hret.
  cbn [out_rw out_rx] in Hrw, Hrx.
  injection Hrw as ->. injection Hrx as ->.
  set (A := {| rw_ptr := rw; rx_ptr := rx; size := N; fd := f |}) in *.
  set (st' := {| g_jit_allocations_by_rw := _ |}) in *.
  assert (HA : open st' A).
  { unfold open, st'. cbn [rw_ptr A g_jit_allocations_by_rw].
    rewrite smap_find_assign, Z.eqb_refl. reflexivity. }
  assert (Hk1 : os_ok k1)
    by (eapply os_ok_insert; [apply inv_os, Hreach|..]; eassumption).
  assert (Hrw_free : os_maps (os_state st) !! rw = None)
    by (eapply mmap_fits_unmapped; [apply inv_os, Hreach|eassumption]).
  assert (Hrx_free1 : os_maps k1 !! rx = None)
    by (eapply mmap_fits_unmapped; eassumption).
  assert (Hne : rx <> rw).
  { intros ->. rewrite M1, lookup_insert_eq in Hrx_free1. discriminate. }
  assert (Hrx_free : os_maps (os_state st) !! rx = None).
  { rewrite M1, lookup_insert_ne in Hrx_free1 by congruence. exact Hrx_free1. }
  assert (Hkey_rw : smap_find rw (g_jit_allocations_by_rw st) = None).
  { destruct (smap_find rw (g_jit_allocations_by_rw st)) as [b|] eqn:Hb;
      [|reflexivity].
    destruct (inv_rw _ Hreach _ _ Hb) as (Hkb & Hm & _). congruence. }
  assert (Hkey_rx : smap_find rx (g_jit_allocations_by_rx st) = None).
  { destruct (smap_find rx (g_jit_allocations_by_rx st)) as [k|] eqn:Hk;
      [|reflexivity].
    destruct (inv_rx _ Hreach _ _ Hk) as (b & Hb & Hbx).
    destruct (inv_rw _ Hreach _ _ Hb) as (_ & _ & Hm & _). congruence. }
  cbv zeta.
  assert (Hfree : android_jit_free rw rx s st' =
                  android_jit_free (rw_ptr A) rx s st') by reflexivity.
  rewrite Hfree, (free_registered st' A rx s Hinv' HA).
  destruct (release_registered st' _ _ Hinv' HA) as (_ & Mr & Fr & Tr).
  cbn [g_jit_allocations_by_rw g_jit_allocations_by_rx os_state].
  rewrite Mr, Fr, Tr.
  unfold st'. cbn [g_jit_allocations_by_rw g_jit_allocations_by_rx os_state].
  unfold A. cbn [rw_ptr rx_ptr size fd].
  rewrite !smap_erase_assign by assumption.
  repeat split.
  - rewrite M2, M1, delete_insert_ne, delete_insert_eq by congruence.
    rewrite delete_insert_eq.
    rewrite (delete_id _ rw) by assumption.
    rewrite (delete_id _ rx) by assumption. reflexivity.
  - rewrite F2. apply fds_restore, Hfresh.
  - exists f. cbv zeta. rewrite <- (alloc_page_ok st Hreach). fold N.
    rewrite T2, <- app_assoc. reflexivity.
Qed.

Lemma alloc_free_round_trip_witness :
  let st'' := android_jit_free (page 1) (page 2) 100 st_one in
  g_jit_allocations_by_rw st'' = g_jit_allocations_by_rw (boot os0) /\
  g_jit_allocations_by_rx st'' = g_jit_allocations_by_rx (boot os0) /\
  os_maps (os_state st'') = os_maps (os_state (boot os0)) /\
  os_fds (os_state st'') = os_fds (os_state (boot os0)) /\
  exists f,
    let N := round_up_to_page (os_pagesize (os_state (boot os0))) 100 in
    os_trace (os_state st'') = os_trace (os_state (boot os0)) ++
      [Sys_memfd_create f; Sys_ftruncate f N 0;
       Sys_mmap N PROT_READ_WRITE f (page 1);
       Sys_mmap N PROT_READ_EXEC f (page 2);
       Sys_munmap (page 1) N; Sys_munmap (page 2) N; Sys_close f].
Proof.
  apply (alloc_free_round_trip (boot os0) 100 true true
           (grants 3 (page 1) (page 2)) (fst run_one) st_one).
  - apply reach_boot, os0_ok.
  - reflexivity.
  - reflexivity.
  - reflexivity.
  - reflexivity.
Defined.

End AllocFree.

(** ** What [android_jit_free] looks at *)
Section FreeArguments.
Import Scenario.

(** X9.  On a registered writable base the executable pointer passed to
    [android_jit_free] has no effect (a mismatch is only logged, and a
    null one does not stop the call): the recorded executable view is the
    one unmapped and the one removed from the second index, and the
    recorded descriptor is the one closed. *)
Theorem free_uses_recorded_exec st a rx1 rx2 s :
  reachable st -> open st a ->
  let st' := android_jit_free (rw_ptr a) rx1 s st in
  st' = android_jit_free (rw_ptr a) rx2 s st /\
  os_maps (os_state st') =
    delete (rx_ptr a) (delete (rw_ptr a) (os_maps (os_state st))) /\
  os_fds (os_state st') = os_fds (os_state st) ∖ {[fd a]} /\
  smap_find (rw_ptr a) (g_jit_allocations_by_rw st') = None /\
  smap_find (rx_ptr a) (g_jit_allocations_by_rx st') = None.
Proof.
  intros Hreach Ha. apply reachable_inv in Hreach. cbv zeta.
  rewrite !(free_registered st a) by assumption.
  destruct (release_registered st _ _ Hreach Ha) as (_ & M & F & _).
  cbn [os_state g_jit_allocations_by_rw g_jit_allocations_by_rx].
  rewrite !smap_find_erase, !Z.eqb_refl.
  repeat split; assumption.
Qed.

Lemma free_uses_recorded_exec_witness :
  let st' := android_jit_free (rw_ptr alloc_one) nullptr 100 st_one in
  st' = android_jit_free (rw_ptr alloc_one) (page 9) 100 st_one /\
  os_maps (os_state st') =
    delete (rx_ptr alloc_one)
      (delete (rw_ptr alloc_one) (os_maps (os_state st_one))) /\
  os_fds (os_state st') = os_fds (os_state st_one) ∖ {[fd alloc_one]} /\
  smap_find (rw_ptr alloc_one) (g_jit_allocations_by_rw st') = None /\
  smap_find (rx_ptr alloc_one) (g_jit_allocations_by_rx st') = None.
Proof.
  apply (free_uses_recorded_exec st_one alloc_one nullptr (page 9) 100).
  - exact st_one_reachable.
  - exact st_one_open.
Defined.

(** X10.  Only the exact writable base releases an allocation.
    [android_jit_free] called with an interior writable address, or with
    any address of the executable view in the place of the writable
    pointer, changes nothing: the allocation stays open. *)
Theorem free_needs_exact_base st a off rx_arg s :
  reachable st -> open st a -> 0 <= off < size a ->
  (0 < off -> android_jit_free (rw_ptr a + off) rx_arg s st = st) /\
  android_jit_free (rx_ptr a + off) rx_arg s st = st.
Proof.
  intros Hreach Ha Hoff. apply reachable_inv in Hreach.
  destruct (inv_rw _ Hreach _ _ Ha) as (_ & Hma & Hmx & _).
  destruct (inv_os _ Hreach) as (_ & _ & Hd).
  assert (Hnoop : forall p,
             smap_find p (g_jit_allocations_by_rw st) = None ->
             android_jit_free p rx_arg s st = st).
  { intros p Hp. unfold android_jit_free. rewrite Hp.
    destruct ((p =? nullptr) && (rx_arg =? nullptr)); reflexivity. }
  split.
  - intros Hpos. apply Hnoop.
    destruct (smap_find (rw_ptr a + off) (g_jit_allocations_by_rw st))
      as [b|] eqn:Hb; [exfalso|reflexivity].
    destruct (inv_rw _ Hreach _ _ Hb) as (Hkb & _).
    destruct (record_bounds _ _ _ Hreach Hb) as (Hszb & _).
    assert (a = b) by (eapply (rw_range_unique st _ a _ b (rw_ptr a + off));
                       try eassumption; lia).
    subst b. lia.
  - apply Hnoop.
    destruct (smap_find (rx_ptr a + off) (g_jit_allocations_by_rw st))
      as [b|] eqn:Hb; [exfalso|reflexivity].
    destruct (inv_rw _ Hreach _ _ Hb) as (Hkb & Hmb & _).
    destruct (record_bounds _ _ _ Hreach Hb) as (Hszb & _).
    pose proof (inv_cross _ Hreach _ _ _ _ Ha Hb) as Hne.
    specialize (Hd _ _ _ _ Hmx Hmb Hne). lia.
Qed.

Lemma free_needs_exact_base_witness :
  (0 < 64 -> android_jit_free (rw_ptr alloc_one + 64) (page 2) 100 st_one =
             st_one) /\
  android_jit_free (rx_ptr alloc_one + 64) (page 2) 100 st_one = st_one.
Proof.
  apply (free_needs_exact_base st_one alloc_one 64 (page 2) 100).
  - exact st_one_reachable.
  - exact st_one_open.
  - vm_compute. split; [discriminate|reflexivity].
Defined.

End FreeArguments.

(** ** What the lookups can answer *)
Section Lookups.
Import Scenario.

(** Either some record's writable range holds [p], or none does. *)
Lemma rw_cover_dec st p :
  inv st ->
  (exists a, open st a /\ rw_ptr a <= p < rw_ptr a + size a) \/
  (forall a, open st a -> ~ (rw_ptr a <= p < rw_ptr a + size a)).
Proof.
  intros Hinv.
  assert (Hlist : forall m : list (Z * JitAllocation),
             (exists k a, In (k, a) m /\ rw_ptr a <= p < rw_ptr a + size a) \/
             (forall k a, In (k, a) m ->
                ~ (rw_ptr a <= p < rw_ptr a + size a))).
  { induction m as [|[k0 a0] m [IH|IH]].
    - right. intros ? ? [].
    - left. destruct IH as (k & a & Hin & Hp).
      exists k, a. split; [right; exact Hin|exact Hp].
    - destruct (Z_le_dec (rw_ptr a0) p) as [H1|H1];
        [destruct (Z_lt_dec p (rw_ptr a0 + size a0)) as [H2|H2]|].
      + left. exists k0, a0. split; [left; reflexivity|lia].
      + right. intros k a [[= <- <-]|Hin]; [lia|eapply IH, Hin].
      + right. intros k a [[= <- <-]|Hin]; [lia|eapply IH, Hin]. }
  destruct (Hlist (g_jit_allocations_by_rw st)) as [(k & a & Hin & Hp)|Hnone].
  - left. exists a. split; [|exact Hp].
    apply (visited_is_record _ _ _ Hinv) in Hin.
    destruct (inv_rw _ Hinv _ _ Hin) as (Hk & _). unfold open. congruence.
  - right. intros a Ha. apply (Hnone (rw_ptr a)), smap_find_In, Ha.
Qed.

Lemma rx_cover_dec st p :
  inv st ->
  (exists a, open st a /\ rx_ptr a <= p < rx_ptr a + size a) \/
  (forall a, open st a -> ~ (rx_ptr a <= p < rx_ptr a + size a)).
Proof.
  intros Hinv.
  assert (Hlist : forall m : list (Z * JitAllocation),
             (exists k a, In (k, a) m /\ rx_ptr a <= p < rx_ptr a + size a) \/
             (forall k a, In (k, a) m ->
                ~ (rx_ptr a <= p < rx_ptr a + size a))).
  { induction m as [|[k0 a0] m [IH|IH]].
    - right. intros ? ? [].
    - left. destruct IH as (k & a & Hin & Hp).
      exists k, a. split; [right; exact Hin|exact Hp].
    - destruct (Z_le_dec (rx_ptr a0) p) as [H1|H1];
        [destruct (Z_lt_dec p (rx_ptr a0 + size a0)) as [H2|H2]|].
      + left. exists k0, a0. split; [left; reflexivity|lia].
      + right. intros k a [[= <- <-]|Hin]; [lia|eapply IH, Hin].
      + right. intros k a [[= <- <-]|Hin]; [lia|eapply IH, Hin]. }
  destruct (Hlist (g_jit_allocations_by_rw st)) as [(k & a & Hin & Hp)|Hnone].
  - left. exists a. split; [|exact Hp].
    apply (visited_is_record _ _ _ Hinv) in Hin.
    destruct (inv_rw _ Hinv _ _ Hin) as (Hk & _). unfold open. congruence.
  - right. intros a Ha. apply (Hnone (rw_ptr a)), smap_find_In, Ha.
Qed.

(** X11.  [android_jit_rw_to_rx] answers in exactly two ways.  When the
    address lies in the writable range of an open allocation, the answer
    is the address at the same offset in that allocation's executable
    view, which is not null.  Otherwise (null, below, between or above the
    ranges) the answer is not-found.  An address inside one allocation is
    therefore never resolved against another. *)
Theorem rw_to_rx_answers st p :
  reachable st -> 0 <= p ->
  (exists a, open st a /\ rw_ptr a <= p < rw_ptr a + size a /\
             android_jit_rw_to_rx p st = rx_ptr a + (p - rw_ptr a) /\
             android_jit_rw_to_rx p st <> nullptr) \/
  ((forall a, open st a -> ~ (rw_ptr a <= p < rw_ptr a + size a)) /\
   android_jit_rw_to_rx p st = nullptr).
Proof.
  intros Hreach Hp. apply reachable_inv in Hreach.
  destruct (rw_cover_dec st p Hreach) as [(a & Ha & Hin)|Hnone].
  - left. exists a.
    destruct (record_bounds _ _ _ Hreach Ha) as (_ & _ & _ & Hrx & _).
    pose proof (rw_to_rx_inside st a (p - rw_ptr a) Hreach Ha ltac:(lia))
      as Hres.
    replace (rw_ptr a + (p - rw_ptr a)) with p in Hres by lia.
    repeat split; try assumption; try lia.
    rewrite Hres. unfold nullptr. lia.
  - right. split; [exact Hnone|].
    apply rw_to_rx_outside; assumption.
Qed.

Lemma rw_to_rx_answers_witness :
  (exists a, open st_two a /\
     rw_ptr a <= page 3 + 9 < rw_ptr a + size a /\
     android_jit_rw_to_rx (page 3 + 9) st_two =
       rx_ptr a + (page 3 + 9 - rw_ptr a) /\
     android_jit_rw_to_rx (page 3 + 9) st_two <> nullptr) \/
  ((forall a, open st_two a ->
      ~ (rw_ptr a <= page 3 + 9 < rw_ptr a + size a)) /\
   android_jit_rw_to_rx (page 3 + 9) st_two = nullptr).
Proof.
  apply (rw_to_rx_answers st_two (page 3 + 9)).
  - exact st_two_reachable.
  - vm_compute. discriminate.
Defined.

(** X12.  [android_jit_rx_to_rw] never follows a dangling record pointer,
    and answers in exactly two ways: the address at the same offset in the
    writable view when the argument lies in the executable range of an
    open allocation, not-found otherwise. *)
Theorem rx_to_rw_answers st p :
  reachable st -> 0 <= p ->
  (exists a, open st a /\ rx_ptr a <= p < rx_ptr a + size a /\
             android_jit_rx_to_rw p st = Some (rw_ptr a + (p - rx_ptr a)) /\
             rw_ptr a + (p - rx_ptr a) <> nullptr) \/
  ((forall a, open st a -> ~ (rx_ptr a <= p < rx_ptr a + size a)) /\
   android_jit_rx_to_rw p st = Some nullptr).
Proof.
  intros Hreach Hp. apply reachable_inv in Hreach.
  destruct (rx_cover_dec st p Hreach) as [(a & Ha & Hin)|Hnone].
  - left. exists a.
    destruct (record_bounds _ _ _ Hreach Ha) as (_ & Hrw & _).
    pose proof (rx_to_rw_inside st a (p - rx_ptr a) Hreach Ha ltac:(lia))
      as Hres.
    replace (rx_ptr a + (p - rx_ptr a)) with p in Hres by lia.
    repeat split; try assumption; try lia.
    unfold nullptr. lia.
  - right. split; [exact Hnone|].
    apply rx_to_rw_outside; assumption.
Qed.

Lemma rx_to_rw_answers_witness :
  (exists a, open st_two a /\
     rx_ptr a <= page 2 + 9 < rx_ptr a + size a /\
     android_jit_rx_to_rw (page 2 + 9) st_two =
       Some (rw_ptr a + (page 2 + 9 - rx_ptr a)) /\
     rw_ptr a + (page 2 + 9 - rx_ptr a) <> nullptr) \/
  ((forall a, open st_two a ->
      ~ (rx_ptr a <= page 2 + 9 < rx_ptr a + size a)) /\
   android_jit_rx_to_rw (page 2 + 9) st_two = Some nullptr).
Proof.
  apply (rx_to_rw_answers st_two (page 2 + 9)).
  - exact st_two_reachable.
  - vm_compute. discriminate.
Defined.

(** X13.  The lookups do not cross views: an address of an executable view
    given to [android_jit_rw_to_rx], or an address of a writable view
    given to [android_jit_rx_to_rw], is not found. *)
Theorem wrong_view_not_found st a off :
  reachable st -> open st a -> 0 <= off < size a ->
  android_jit_rw_to_rx (rx_ptr a + off) st = nullptr /\
  android_jit_rx_to_rw (rw_ptr a + off) st = Some nullptr.
Proof.
  intros Hreach Ha Hoff. apply reachable_inv in Hreach.
  destruct (inv_rw _ Hreach _ _ Ha) as (_ & Hma & Hmx & _).
  destruct (record_bounds _ _ _ Hreach Ha) as (_ & Hrw & _ & Hrx & _).
  destruct (inv_os _ Hreach) as (_ & _ & Hd).
  split.
  - apply rw_to_rx_outside; [exact Hreach|lia|].
    intros b Hb Hin.
    destruct (inv_rw _ Hreach _ _ Hb) as (_ & Hmb & _).
    pose proof (inv_cross _ Hreach _ _ _ _ Ha Hb) as Hne.
    specialize (Hd _ _ _ _ Hmx Hmb Hne). lia.
  - apply rx_to_rw_outside; [exact Hreach|lia|].
    intros b Hb Hin.
    destruct (inv_rw _ Hreach _ _ Hb) as (_ & _ & Hmb & _).
    pose proof (inv_cross _ Hreach _ _ _ _ Hb Ha) as Hne.
    specialize (Hd _ _ _ _ Hmb Hma Hne). lia.
Qed.

Lemma wrong_view_not_found_witness :
  android_jit_rw_to_rx (rx_ptr alloc_one + 3) st_one = nullptr /\
  android_jit_rx_to_rw (rw_ptr alloc_one + 3) st_one = Some nullptr.
Proof.
  apply (wrong_view_not_found st_one alloc_one 3).
  - exact st_one_reachable.
  - exact st_one_open.
  - vm_compute. split; [discriminate|reflexivity].
Defined.

End Lookups.

(** ** What the registry holds *)
Section Registry.
Import Scenario.

(** X14.  The views of the open allocations never overlap.  Every open
    allocation has a positive size that is a multiple of the page size,
    two non-null views inside the address space that are disjoint from
    each other, and, against any other open allocation, writable and
    executable ranges that are pairwise disjoint and a different
    descriptor. *)
Theorem open_views_disjoint st a b :
  reachable st -> open st a -> open st b ->
  0 < size a /\ size a mod os_pagesize (os_state st) = 0 /\
  0 < rw_ptr a /\ rw_ptr a + size a < SIZE_MOD /\
  0 < rx_ptr a /\ rx_ptr a + size a < SIZE_MOD /\
  (rw_ptr a + size a <= rx_ptr a \/ rx_ptr a + size a <= rw_ptr a) /\
  (a <> b ->
     (rw_ptr a + size a <= rw_ptr b \/ rw_ptr b + size b <= rw_ptr a) /\
     (rx_ptr a + size a <= rx_ptr b \/ rx_ptr b + size b <= rx_ptr a) /\
     (rw_ptr a + size a <= rx_ptr b \/ rx_ptr b + size b <= rw_ptr a) /\
     fd a <> fd b).
Proof.
  intros Hreach Ha Hb.
  pose proof (reachable_lifecycle_inv _ Hreach) as Hli.
  apply reachable_inv in Hreach.
  destruct (record_bounds _ _ _ Hreach Ha) as (Hsz & Hrw & Hrwl & Hrx & Hrxl).
  destruct (inv_rw _ Hreach _ _ Ha) as (_ & Hma & Hmx & _ & _ & Hxa).
  destruct (inv_rw _ Hreach _ _ Hb) as (_ & Hmb & Hmbx & _ & _ & Hxb).
  destruct (inv_os _ Hreach) as (_ & _ & Hd).
  repeat split; try assumption.
  - apply (sizes_paged _ Hli _ _ Ha).
  - apply (Hd _ _ _ _ Hma Hmx).
    intros Heq. apply (inv_cross _ Hreach _ _ _ _ Ha Ha). congruence.
  - apply (Hd _ _ _ _ Hma Hmb). intros Heq. apply H.
    unfold open in Ha, Hb. congruence.
  - apply (Hd _ _ _ _ Hmx Hmbx). intros Heq. apply H.
    rewrite Heq in Hxa. unfold open in Ha, Hb. congruence.
  - apply (Hd _ _ _ _ Hma Hmbx).
    intros Heq. apply (inv_cross _ Hreach _ _ _ _ Hb Ha). congruence.
  - intros Heq. apply H.
    pose proof (inv_fd _ Hreach _ _ _ _ Ha Hb Heq).
    unfold open in Ha, Hb. congruence.
Qed.

Lemma open_views_disjoint_witness :
  0 < size alloc_one /\
  size alloc_one mod os_pagesize (os_state st_two) = 0 /\
  0 < rw_ptr alloc_one /\ rw_ptr alloc_one + size alloc_one < SIZE_MOD /\
  0 < rx_ptr alloc_one /\ rx_ptr alloc_one + size alloc_one < SIZE_MOD /\
  (rw_ptr alloc_one + size alloc_one <= rx_ptr alloc_one \/
   rx_ptr alloc_one + size alloc_one <= rw_ptr alloc_one) /\
  (alloc_one <> alloc_B ->
     (rw_ptr alloc_one + size alloc_one <= rw_ptr alloc_B \/
      rw_ptr alloc_B + size alloc_B <= rw_ptr alloc_one) /\
     (rx_ptr alloc_one + size alloc_one <= rx_ptr alloc_B \/
      rx_ptr alloc_B + size alloc_B <= rx_ptr alloc_one) /\
     (rw_ptr alloc_one + size alloc_one <= rx_ptr alloc_B \/
      rx_ptr alloc_B + size alloc_B <= rw_ptr alloc_one) /\
     fd alloc_one <> fd alloc_B).
Proof.
  apply (open_views_disjoint st_two alloc_one alloc_B).
  - exact st_two_reachable.
  - exact st_two_open_one.
  - exact st_two_open_B.
Defined.

(** X15.  The two indexes always describe the same allocations.  Every
    entry of the executable index points to a live record of the writable
    index whose executable base is the entry's key (the stored record
    pointer is never dangling); every record is stored under its own
    writable base and is indexed under its executable base. *)
Theorem indexes_agree st :
  reachable st ->
  (forall x k, smap_find x (g_jit_allocations_by_rx st) = Some k ->
     exists a, deref st k = Some a /\ open st a /\
               rw_ptr a = k /\ rx_ptr a = x) /\
  (forall k a, smap_find k (g_jit_allocations_by_rw st) = Some a ->
     rw_ptr a = k /\
     smap_find (rx_ptr a) (g_jit_allocations_by_rx st) = Some k).
Proof.
  intros Hreach. apply reachable_inv in Hreach. split.
  - intros x k Hx. destruct (inv_rx _ Hreach _ _ Hx) as (a & Ha & Hax).
    destruct (inv_rw _ Hreach _ _ Ha) as (Hk & _).
    exists a. unfold deref, open. repeat split; congruence.
  - intros k a Ha.
    destruct (inv_rw _ Hreach _ _ Ha) as (Hk & _ & _ & _ & _ & Hx).
    split; assumption.
Qed.

Lemma indexes_agree_witness :
  exists a, deref st_one (page 1) = Some a /\ open st_one a /\
            rw_ptr a = page 1 /\ rx_ptr a = page 2.
Proof.
  destruct (indexes_agree st_one st_one_reachable) as [H _].
  apply H. vm_compute. reflexivity.
Defined.

(** X16.  Records exist only while the subsystem is initialised: in the
    uninitialised state both indexes are empty.  The cached page size is
    either still unset or the system's page size, and it is the system's
    whenever the subsystem is initialised.  It survives a shutdown:
    [android_jit_shutdown] leaves the subsystem uninitialised but keeps
    the cached page size, so after the shutdown of an initialised
    subsystem it is still the system's page size, not zero. *)
Theorem registry_only_while_initialised st :
  reachable st ->
  (g_initialized st = false ->
     g_jit_allocations_by_rw st = [] /\ g_jit_allocations_by_rx st = []) /\
  (g_page_size st = 0 \/ g_page_size st = os_pagesize (os_state st)) /\
  (g_initialized st = true -> g_page_size st = os_pagesize (os_state st)) /\
  g_initialized (android_jit_shutdown st) = false /\
  g_page_size (android_jit_shutdown st) = g_page_size st /\
  os_pagesize (os_state (android_jit_shutdown st)) =
    os_pagesize (os_state st) /\
  (g_initialized st = true ->
     g_page_size (android_jit_shutdown st) =
       os_pagesize (os_state (android_jit_shutdown st)) /\
     g_page_size (android_jit_shutdown st) <> 0).
Proof.
  intros Hreach. pose proof (reachable_lifecycle_inv _ Hreach) as Hli.
  apply reachable_inv in Hreach.
  assert (Hps : os_pagesize (os_state (android_jit_shutdown st)) =
                os_pagesize (os_state st))
    by apply (exec_pagesize Call_shutdown st Hreach).
  split; [apply (uninit_empty _ Hli)|].
  split; [apply (page_cached _ Hli)|].
  split; [apply inv_page, Hreach|].
  split; [reflexivity|]. split; [reflexivity|]. split; [exact Hps|].
  intros Hi. rewrite Hps.
  change (g_page_size (android_jit_shutdown st)) with (g_page_size st).
  rewrite (inv_page _ Hreach Hi). split; [reflexivity|].
  destruct (inv_os _ Hreach) as ((n & Hn & Hp) & _). rewrite Hp.
  pose proof (pow2_below_word n Hn). lia.
Qed.

Lemma registry_only_while_initialised_witness :
  g_page_size (android_jit_shutdown st_one) =
    os_pagesize (os_state (android_jit_shutdown st_one)) /\
  g_page_size (android_jit_shutdown st_one) <> 0.
Proof.
  destruct (registry_only_while_initialised st_one st_one_reachable)
    as (_ & _ & _ & _ & _ & _ & H).
  apply H. reflexivity.
Defined.

End Registry.

(** ** Shutdown *)
Section Shutdown.
Import Scenario.

Lemma release_all_other_map (m : list (Z * JitAllocation)) k b :
  (forall k0 a, In (k0, a) m -> rw_ptr a <> b /\ rx_ptr a <> b) ->
  os_maps (fold_left (fun k kv => release (snd kv) k) m k) !! b =
    os_maps k !! b.
Proof.
  revert k. induction m as [|[k0 a0] m IH]; intros k Hm; simpl;
    [reflexivity|].
  rewrite IH by (intros k1 a Hin; apply (Hm k1 a); right; exact Hin).
  destruct (Hm k0 a0 (or_introl eq_refl)) as [H1 H2].
  apply release_other_map; congruence.
Qed.

Lemma release_all_other_fd (m : list (Z * JitAllocation)) k x :
  (forall k0 a, In (k0, a) m -> fd a <> x) ->
  (x ∈ os_fds (fold_left (fun k kv => release (snd kv) k) m k) <->
   x ∈ os_fds k).
Proof.
  revert k. induction m as [|[k0 a0] m IH]; intros k Hm; simpl;
    [reflexivity|].
  rewrite IH by (intros k1 a Hin; apply (Hm k1 a); right; exact Hin).
  pose proof (Hm k0 a0 (or_introl eq_refl)).
  apply release_other_fd. congruence.
Qed.

Lemma release_all_trace (m : list (Z * JitAllocation)) k :
  (forall k0 a, In (k0, a) m ->
     rw_ptr a <> 0 /\ rx_ptr a <> 0 /\ 0 <= fd a) ->
  os_trace (fold_left (fun k kv => release (snd kv) k) m k) =
    os_trace k ++ flat_map (fun kv => release_calls (snd kv)) m.
Proof.
  revert k. induction m as [|[k0 a0] m IH]; intros k Hm; simpl.
  - rewrite app_nil_r. reflexivity.
  - rewrite IH by (intros k1 a Hin; apply (Hm k1 a); right; exact Hin).
    destruct (Hm k0 a0 (or_introl eq_refl)) as (H1 & H2 & H3).
    rewrite release_trace by assumption.
    rewrite <- app_assoc. reflexivity.
Qed.

(** X17.  [android_jit_shutdown] releases only what the registry owns: a
    mapping that is not a view of an open allocation, and a descriptor
    that belongs to none, are left exactly as they were. *)
Theorem shutdown_releases_only_own st :
  reachable st ->
  (forall b, (forall a, open st a -> rw_ptr a <> b /\ rx_ptr a <> b) ->
     os_maps (os_state (android_jit_shutdown st)) !! b =
       os_maps (os_state st) !! b) /\
  (forall x, (forall a, open st a -> fd a <> x) ->
     (x ∈ os_fds (os_state (android_jit_shutdown st)) <->
      x ∈ os_fds (os_state st))).
Proof.
  intros Hreach. apply reachable_inv in Hreach.
  assert (Hopen : forall k0 a, In (k0, a) (g_jit_allocations_by_rw st) ->
                               open st a).
  { intros k0 a Hin. apply (visited_is_record _ _ _ Hreach) in Hin.
    destruct (inv_rw _ Hreach _ _ Hin) as (Hk & _). unfold open. congruence. }
  split.
  - intros b Hb. cbn [android_jit_shutdown os_state].
    apply release_all_other_map.
    intros k0 a Hin. apply Hb, (Hopen k0), Hin.
  - intros x Hx. cbn [android_jit_shutdown os_state].
    apply release_all_other_fd.
    intros k0 a Hin. apply Hx, (Hopen k0), Hin.
Qed.

Lemma shutdown_releases_only_own_witness :
  0 ∈ os_fds (os_state (android_jit_shutdown st_one)) <->
  0 ∈ os_fds (os_state st_one).
Proof.
  destruct (shutdown_releases_only_own st_one st_one_reachable) as [_ H].
  apply H. intros a Ha. unfold open in Ha. rewrite st_one_registry in Ha.
  cbn [smap_find] in Ha.
  destruct (page 1 =? rw_ptr a); [|discriminate].
  injection Ha as <-. vm_compute. discriminate.
Defined.

(** X18.  [android_jit_shutdown] releases every open allocation exactly
    once, in ascending order of writable base: its system calls are, for
    each record in turn, the unmap of the writable view, the unmap of the
    executable view (both with the recorded size) and the close of the
    descriptor, and nothing else. *)
Theorem shutdown_calls st :
  reachable st ->
  os_trace (os_state (android_jit_shutdown st)) =
    os_trace (os_state st) ++
    flat_map (fun kv => release_calls (snd kv)) (g_jit_allocations_by_rw st) /\
  smap_sorted (g_jit_allocations_by_rw st).
Proof.
  intros Hreach. apply reachable_inv in Hreach.
  split; [|apply inv_sorted, Hreach].
  cbn [android_jit_shutdown os_state]. apply release_all_trace.
  intros k0 a Hin. apply (visited_is_record _ _ _ Hreach) in Hin.
  destruct (record_bounds _ _ _ Hreach Hin) as (_ & Hrw & _ & Hrx & _).
  destruct (inv_rw _ Hreach _ _ Hin) as (_ & _ & _ & Hfd & _).
  repeat split; try assumption; lia.
Qed.

Lemma shutdown_calls_witness :
  os_trace (os_state (android_jit_shutdown st_two)) =
    os_trace (os_state st_two) ++
    flat_map (fun kv => release_calls (snd kv))
      (g_jit_allocations_by_rw st_two) /\
  smap_sorted (g_jit_allocations_by_rw st_two).
Proof.
  apply (shutdown_calls st_two). exact st_two_reachable.
Defined.

(** X19.  After [android_jit_shutdown] every lookup is not-found, every
    [android_jit_free] does nothing, and a second shutdown changes
    nothing (it issues no system call). *)
Theorem after_shutdown st p rw_arg rx_arg s :
  let st' := android_jit_shutdown st in
  android_jit_rw_to_rx p st' = nullptr /\
  android_jit_rx_to_rw p st' = Some nullptr /\
  android_jit_free rw_arg rx_arg s st' = st' /\
  android_jit_shutdown st' = st'.
Proof.
  cbv zeta. repeat split.
  - unfold android_jit_rw_to_rx, android_jit_shutdown.
    cbn [g_jit_allocations_by_rw smap_find scan_rw].
    destruct (p =? nullptr); reflexivity.
  - unfold android_jit_rx_to_rw, android_jit_shutdown.
    cbn [g_jit_allocations_by_rx g_jit_allocations_by_rw smap_find scan_rx].
    destruct (p =? nullptr); reflexivity.
  - unfold android_jit_free, android_jit_shutdown.
    cbn [g_jit_allocations_by_rw smap_find].
    destruct ((rw_arg =? nullptr) && (rx_arg =? nullptr)); reflexivity.
Qed.

End Shutdown.

(** ** When an allocation succeeds *)
Section AllocSucceeds.
Import Scenario.

(** X20.  [android_jit_alloc] fails only when a system call fails: with
    non-null output slots, a fresh descriptor granted, the resize granted,
    and two free ranges of the rounded size granted for the views (the
    second disjoint from the first), the call returns 0 and stores the two
    granted addresses. *)
Theorem alloc_succeeds_when_granted st sz f t rw rx :
  reachable st ->
  let N := round_up_to_page (os_pagesize (os_state st)) sz in
  fd_fresh (os_state st) f ->
  mmap_fits (os_state st) rw N ->
  mmap_fits (set_maps (insert rw N) (os_state st)) rx N ->
  fst (android_jit_alloc sz true true
         {| on_memfd_create := Grant f; on_ftruncate := Grant t;
            on_mmap_rw := Grant rw; on_mmap_rx := Grant rx |} st) =
  {| ret := 0; out_rw := Some rw; out_rx := Some rx |}.
Proof.
  intros Hreach N Hfresh Hfit1 Hfit2. apply reachable_inv in Hreach.
  pose proof (alloc_page_ok st Hreach) as Hap.
  unfold android_jit_alloc. cbn [negb orb on_memfd_create on_ftruncate
                                 on_mmap_rw on_mmap_rx].
  set (st0 := if g_initialized st then st else snd (android_jit_init st)).
  assert (H0 : os_state st0 = os_state st /\ g_page_size st0 = alloc_page st).
  { unfold alloc_page. fold st0. subst st0. unfold android_jit_init.
    destruct (g_initialized st); simpl; auto. }
  destruct H0 as [Hk0 Hpage0]. rewrite Hpage0, Hk0, Hap. fold N.
  unfold sys_memfd_create.
  destruct (decide (fd_fresh (os_state st) f)) as [_|Hn]; [|contradiction].
  replace (f <? 0) with false
    by (symmetry; apply Z.ltb_ge; destruct Hfresh; lia).
  cbn [sys_ftruncate]. cbn [Z.ltb Z.compare].
  unfold sys_mmap.
  replace (N =? 0) with false
    by (symmetry; apply Z.eqb_neq; destruct Hfit1; lia).
  match goal with
  | |- context [decide (mmap_fits ?k rw N)] =>
      destruct (decide (mmap_fits k rw N)) as [_|Hn];
        [|exfalso; apply Hn; exact Hfit1]
  end.
  replace (rw =? MAP_FAILED) with false
    by (symmetry; apply Z.eqb_neq; destruct Hfit1 as (? & ? & ? & ? & _);
        unfold MAP_FAILED; lia).
  match goal with
  | |- context [decide (mmap_fits ?k rx N)] =>
      destruct (decide (mmap_fits k rx N)) as [_|Hn];
        [|exfalso; apply Hn; exact Hfit2]
  end.
  replace (rx =? MAP_FAILED) with false
    by (symmetry; apply Z.eqb_neq; destruct Hfit2 as (? & ? & ? & ? & _);
        unfold MAP_FAILED; lia).
  reflexivity.
Qed.

Lemma alloc_succeeds_when_granted_witness :
  fst (android_jit_alloc 100 true true
         {| on_memfd_create := Grant 5; on_ftruncate := Grant 0;
            on_mmap_rw := Grant (page 7); on_mmap_rx := Grant (page 8) |}
         st_one) =
  {| ret := 0; out_rw := Some (page 7); out_rx := Some (page 8) |}.
Proof.
  apply (alloc_succeeds_when_granted st_one 100 5 0 (page 7) (page 8)).
  - exact st_one_reachable.
  - vm_compute. repeat split; try reflexivity; discriminate.
  - apply (@bool_decide_unpack _ (mmap_fits_dec _ _ _)).
    vm_compute. reflexivity.
  - apply (@bool_decide_unpack _ (mmap_fits_dec _ _ _)).
    vm_compute. reflexivity.
Defined.

End AllocSucceeds.
